(** * install-github-release-binary: the asset-resolution core

    A shallow embedding of [src/platform.ts] and [src/fetch.ts] (and of the
    target parser, whose source is described by the specification only),
    together with the properties the specification states about them.

    JavaScript strings are modelled by [string]; every constant the program
    compares against is plain ASCII.  An optional field or parameter
    ([label?: string | null], [name?: string], [targetDupleUnderscore?]) is
    an [option string], [None] standing for [undefined] and [null].  A
    function that can throw returns an [Outcome]. *)

From Stdlib Require Import Ascii DecimalString.
From stdpp Require Import base option list strings gmap.

Local Open Scope stdpp_scope.

(** ** JavaScript primitives used by the program *)

Module Js.

(** What a call produces: a value, a thrown [Error] with its message, or the
    [TypeError] the engine raises when a property of [undefined] is read. *)
Inductive Outcome (A : Type) : Type :=
| Return (value : A)
| Throw (message : string)
| ThrowTypeError.
Arguments Return {A} value.
Arguments Throw {A} message.
Arguments ThrowTypeError {A}.

Definition isReturn {A} (o : Outcome A) : bool :=
  match o with Return _ => true | _ => false end.

(** [s === t] on strings. *)
Definition strictEq (s t : string) : bool := String.eqb s t.

(** [if (s)] on a string: the empty string is falsy. *)
Definition truthy (s : string) : bool := negb (String.eqb s "").

(** [if (o)] on an optional string: [undefined] and the empty string are falsy. *)
Definition truthyOpt (o : option string) : bool :=
  match o with Some s => truthy s | None => false end.

(** [s.endsWith(searchString)]. *)
Fixpoint endsWith (s searchString : string) : bool :=
  String.eqb s searchString ||
  match s with
  | EmptyString => false
  | String _ rest => endsWith rest searchString
  end.

(** [s.replace(new RegExp(`[seps]${literal}$`), "")] for a [literal] without
    regular-expression metacharacters: the match, if any, is the suffix made
    of one separator of [seps] followed by [literal]; it is removed.  With
    [seps] a single character this is the pattern [`-${literal}$`]. *)
Fixpoint replaceSuffix (seps : list ascii) (literal : string) (s : string) : string :=
  match s with
  | EmptyString => EmptyString
  | String c rest =>
      if existsb (Ascii.eqb c) seps && String.eqb rest literal then EmptyString
      else String c (replaceSuffix seps literal rest)
  end.

(** The characters of [s] are all different from the dot, and there is one. *)
Fixpoint extensionBody (s : string) : bool :=
  match s with
  | EmptyString => false
  | String c EmptyString => negb (Ascii.eqb c ".")
  | String c rest => negb (Ascii.eqb c ".") && extensionBody rest
  end.

(** [s.replace(/\.[^.]+$/, '')]: the leftmost dot followed by one or more
    characters other than the dot up to the end of the string is the last
    dot, when something follows it. *)
Fixpoint stripExtension (s : string) : string :=
  match s with
  | EmptyString => EmptyString
  | String c rest =>
      if Ascii.eqb c "." && extensionBody rest then EmptyString
      else String c (stripExtension rest)
  end.

(** [parts.join(sep)]. *)
Fixpoint join (sep : string) (parts : list string) : string :=
  match parts with
  | [] => ""
  | [p] => p
  | p :: rest => p +:+ sep +:+ join sep rest
  end.

(** [`${n}`] for a length. *)
Definition numberToString (n : nat) : string :=
  NilEmpty.string_of_uint (Nat.to_uint n).

End Js.
Import Js.

(** ** src/platform.ts *)

Definition ALL_TARGET_TRIPLES : list string :=
  [ "aarch64-apple-darwin";
    "aarch64-unknown-linux-musl";
    "x86_64-apple-darwin";
    "x86_64-unknown-linux-musl" ].

(** Hyphenated versions first, underscore versions after. *)
Definition TARGET_DUPLES : list string :=
  [ "linux-amd64"; "linux-arm64"; "darwin-amd64"; "darwin-arm64";
    "linux_amd64"; "linux_arm64"; "darwin_amd64"; "darwin_arm64" ].

Definition architectureLabel (arch : string) : Outcome string :=
  if strictEq arch "arm64" then Return "aarch64"
  else if strictEq arch "x64" then Return "x86_64"
  else Throw ("Unsupported architecture " +:+ arch +:+
              " -- only aarch64 and x86_64 currently supported").

Record PlatformDuple := { vendor : string; operatingSystem : string }.

Definition platformLabel (platform : string) : Outcome PlatformDuple :=
  if strictEq platform "darwin" then
    Return {| vendor := "apple"; operatingSystem := "darwin" |}
  else if strictEq platform "linux" then
    Return {| vendor := "unknown"; operatingSystem := "linux-musl" |}
  else Throw ("Unsupported platform " +:+ platform +:+
              " -- only darwin and linux currently supported").

Definition getTargetTriple (arch platform : string) : Outcome string :=
  match architectureLabel arch with
  | Return architecture =>
      match platformLabel platform with
      | Return p =>
          Return (architecture +:+ "-" +:+ vendor p +:+ "-" +:+ operatingSystem p)
      | Throw m => Throw m
      | ThrowTypeError => ThrowTypeError
      end
  | Throw m => Throw m
  | ThrowTypeError => ThrowTypeError
  end.

Definition getTargetDuple (arch platform : string) : Outcome string :=
  if strictEq platform "darwin" then
    Return (if strictEq arch "arm64" then "darwin-arm64" else "darwin-amd64")
  else if strictEq platform "linux" then
    Return (if strictEq arch "arm64" then "linux-arm64" else "linux-amd64")
  else Throw ("Unsupported platform " +:+ platform +:+
              " for target duple conversion").

Definition getTargetDupleUnderscore (arch platform : string) : Outcome string :=
  if strictEq platform "darwin" then
    Return (if strictEq arch "arm64" then "darwin_arm64" else "darwin_amd64")
  else if strictEq platform "linux" then
    Return (if strictEq arch "arm64" then "linux_arm64" else "linux_amd64")
  else Throw ("Unsupported platform " +:+ platform +:+
              " for target duple conversion").

(** [list.find((x) => x === value)] used as a condition: every element of
    the two tables is a non-empty string, so the result is truthy exactly
    when some element equals [value]. *)
Definition findEqual (table : list string) (value : string) : bool :=
  existsb (fun x => strictEq x value) table.

Definition hyphen : list ascii := ["-"%char].
Definition hyphenOrUnderscore : list ascii := ["-"%char; "_"%char].

(** The two [reduce] calls of [stripTargetTriple]. *)
Definition stripTriples (value : string) : string :=
  fold_left (fun value targetTriple => replaceSuffix hyphen targetTriple value)
            ALL_TARGET_TRIPLES value.

Definition stripDuples (value : string) : string :=
  fold_left (fun value duple => replaceSuffix hyphenOrUnderscore duple value)
            TARGET_DUPLES value.

Definition stripTargetTriple (value : string) : option string :=
  if findEqual ALL_TARGET_TRIPLES value then None
  else if findEqual TARGET_DUPLES value then None
  else
    let strippedTriple := stripTriples value in
    if negb (strictEq strippedTriple value) then Some strippedTriple
    else
      let strippedDuple := stripDuples value in
      if negb (strictEq strippedDuple value) then Some strippedDuple
      else Some value.

(** The entries of [table] that come after the first occurrence of [x]: the
    ones a [reduce] over [table] still visits once [x] has been visited. *)
Fixpoint listedAfter (x : string) (table : list string) : list string :=
  match table with
  | [] => []
  | y :: rest => if strictEq y x then rest else listedAfter x rest
  end.

(** No entry of [table] other than [d], behind a separator of [seps], is a
    suffix of [sep] followed by [d], nor the other way round. *)
Definition unrelatedSuffixes (seps : list ascii) (table : list string)
  (sep : ascii) (d : string) : bool :=
  forallb (fun d' =>
             strictEq d' d ||
             forallb (fun sep' =>
                        negb (endsWith (String sep d) (String sep' d')) &&
                        negb (endsWith (String sep' d') (String sep d))) seps)
          table.

(** ** src/option.ts *)

(** Modelled from the spec: [isEqual] of the option module, which is not
    among the sources; the resolver uses it to "check if its sha matches the
    already-known sha of the given reference". *)
Definition isEqual (a : option string) (b : string) : bool :=
  match a with
  | Some value => strictEq value b
  | None => false
  end.

(** ** src/fetch.ts: the version resolver *)

Record RepositorySlug := { owner : string; repository : string }.

Record Commit := { sha : string }.

Record Tag := { tag_name : string; tag_commit : Commit }.

(** The two variables the closure returned by [semanticVersionTagReducer]
    captures and mutates.  The keys of [versionsBySha] are 40-digit
    hexadecimal hashes, never a property name of [Object.prototype]. *)
Record ReducerState := {
  versionsBySha : gmap string (list string);
  givenTagSha : option string
}.

Definition initialState : ReducerState :=
  {| versionsBySha := ∅; givenTagSha := None |}.

Section VersionResolver.

(** [isExactSemanticVersion] of [src/types.ts] is not among the sources: the
    resolver is embedded over any such predicate. *)
Variable isExactSemanticVersion : string → bool.

Definition containsExactTag (tags : option (list string)) : option string :=
  match tags with
  | None => None
  | Some tags => find (fun v => isExactSemanticVersion v) tags
  end.

(** [versionsBySha[sha] = [version]], or [associatedVersions.push(version)]. *)
Definition recordVersion (st : ReducerState) (sha version : string) : ReducerState :=
  {| versionsBySha :=
       match versionsBySha st !! sha with
       | None => <[sha := [version]]> (versionsBySha st)
       | Some associatedVersions =>
           <[sha := associatedVersions ++ [version]]> (versionsBySha st)
       end;
     givenTagSha := givenTagSha st |}.

(** One call of the closure [reducer]: the state after the call and the
    value returned. *)
Definition reducer (givenTag : string) (st : ReducerState) (tag : Tag)
  : ReducerState * option string :=
  let sha := sha (tag_commit tag) in
  let version := tag_name tag in
  let st1 :=
    if strictEq version givenTag
    then {| versionsBySha := versionsBySha st; givenTagSha := Some sha |}
    else st in
  let maybeExactTag :=
    if strictEq version givenTag
    then containsExactTag (versionsBySha st !! sha)
    else None in
  match maybeExactTag with
  | Some exact => (st1, Some exact)
  | None =>
      if negb (isExactSemanticVersion version) then (st1, None)
      else if isEqual (givenTagSha st1) sha then (st1, Some version)
      else (recordVersion st1 sha version, None)
  end.

(** The inner [for ... of] loop: the reducer is applied to the tags in
    order, until it returns a value. *)
Fixpoint scanTags (givenTag : string) (st : ReducerState) (tags : list Tag)
  : ReducerState * option string :=
  match tags with
  | [] => (st, None)
  | tag :: rest =>
      match reducer givenTag st tag with
      | (st', Some exact) => (st', Some exact)
      | (st', None) => scanTags givenTag st' rest
      end
  end.

(** The outer [for await] loop over the pages of the iterator: a page is
    taken from the iterator only when the pages before it gave nothing.  The
    second component is what is left in the iterator. *)
Fixpoint scanPages (givenTag : string) (st : ReducerState) (pages : list (list Tag))
  : option string * list (list Tag) :=
  match pages with
  | [] => (None, [])
  | response :: rest =>
      match scanTags givenTag st response with
      | (_, Some exact) => (Some exact, rest)
      | (st', None) => scanPages givenTag st' rest
      end
  end.

(** [octokit.paginate.iterator(listTags, ...)] is the list of pages it will
    deliver; the result carries the pages not requested. *)
Definition findExactSemanticVersionTag
  (octokit : list (list Tag)) (slug : RepositorySlug) (target : string)
  : Outcome string * list (list Tag) :=
  if isExactSemanticVersion target then (Return target, octokit)
  else
    match scanPages target initialState octokit with
    | (Some exact, rest) => (Return exact, rest)
    | (None, rest) =>
        (Throw ("Expected to find an exact semantic version tag matching " +:+
                target +:+ " for " +:+ owner slug +:+ "/" +:+ repository slug),
         rest)
    end.

End VersionResolver.

(** A tag of the listing. *)
Definition tagged (name commitSha : string) : Tag :=
  {| tag_name := name; tag_commit := {| sha := commitSha |} |}.

(** What the resolver knows while it scans for the exact tag [e] of the
    commit [S]: the hash of the given tag once that tag has gone by, the
    versions recorded for [S] once [e] has gone by, and never both, since the
    scan stops there. *)
Definition resolverState (e S : string) (seenGiven seenExact : bool)
  (st : ReducerState) : Prop :=
  givenTagSha st = (if seenGiven then Some S else None) ∧
  (if seenExact then ∃ others, versionsBySha st !! S = Some (e :: others)
   else versionsBySha st !! S = None) ∧
  seenGiven && seenExact = false.

(** ** src/fetch.ts: the asset matcher *)

Record Asset := {
  asset_label : option string;
  asset_name : option string;
  asset_url : string
}.

Record ReleaseMetadataResponse := { data_assets : list Asset }.

Record ReleaseAssetMetadata := {
  binaryName : option string;
  url : string;
  name : string
}.

(** [asset.name || '']. *)
Definition nameOrEmpty (a : Asset) : string :=
  match asset_name a with
  | Some n => if truthy n then n else ""
  | None => ""
  end.

(** [typeof field === "string" && p(field)]. *)
Definition whenString (field : option string) (p : string → bool) : bool :=
  match field with
  | Some value => p value
  | None => false
  end.

(** [`${targetDupleUnderscore}`] where the parameter is known to be truthy. *)
Definition valueOf (o : option string) : string := default "" o.

Section Matcher.

Variables (slug : RepositorySlug) (tag targetTriple targetDuple : string)
          (targetDupleUnderscore : option string).

Definition targetLabelTraditional (b : string) : string := b +:+ "-" +:+ targetTriple.
Definition targetLabelDuple (b : string) : string := b +:+ "-" +:+ targetDuple.
Definition targetLabelDupleUnderscore (b : string) : string :=
  if truthyOpt targetDupleUnderscore
  then b +:+ "_" +:+ valueOf targetDupleUnderscore
  else "".

(** The three-way test of the named mode on one field. *)
Definition equalsCandidate (b : string) (field : string) : bool :=
  strictEq field (targetLabelTraditional b) ||
  strictEq field (targetLabelDuple b) ||
  (truthy (targetLabelDupleUnderscore b) &&
   strictEq field (targetLabelDupleUnderscore b)).

(** The callback of [assets.find] in the named mode. *)
Definition namedMatch (b : string) (asset : Asset) : bool :=
  whenString (asset_label asset) (equalsCandidate b) ||
  whenString (asset_name asset) (equalsCandidate b).

Definition namedFormats (b : string) : list string :=
  [targetLabelTraditional b; targetLabelDuple b] ++
  (if truthyOpt targetDupleUnderscore then [targetLabelDupleUnderscore b] else []).

Definition endsWithPlatform (name : string) : bool :=
  let filenameWithoutExt := stripExtension name in
  endsWith filenameWithoutExt targetTriple ||
  endsWith filenameWithoutExt targetDuple ||
  (truthyOpt targetDupleUnderscore &&
   endsWith filenameWithoutExt (valueOf targetDupleUnderscore)).

(** The callback of [assets.filter] in the unnamed mode. *)
Definition unnamedMatch (asset : Asset) : bool :=
  whenString (asset_label asset) endsWithPlatform ||
  whenString (asset_name asset) endsWithPlatform.

Definition unnamedFormats : list string :=
  [targetTriple; targetDuple] ++
  (if truthyOpt targetDupleUnderscore then [valueOf targetDupleUnderscore] else []).

Definition release : string :=
  owner slug +:+ "/" +:+ repository slug +:+ "@" +:+ tag.

Definition notFoundNamed (b : string) : string :=
  "Expected to find asset in release " +:+ release +:+
  " with label or name " +:+ join " or " (namedFormats b).

Definition notFoundUnnamed : string :=
  "Expected to find asset in release " +:+ release +:+
  " with label or name containing platform identifier " +:+
  join " or " unnamedFormats +:+
  " at the end of the filename (before the extension)".

Definition newline : string := String "010"%char "".

Definition ambiguous (found : nat) : string :=
  "Ambiguous targets: expected to find a single asset in release " +:+ release +:+
  " containing platform identifier " +:+ join " or " unnamedFormats +:+
  " at the end of the filename (before the extension), but found " +:+
  numberToString found +:+ "." +:+ newline +:+ newline +:+
  "To resolve, specify the desired binary with the target format " +:+
  owner slug +:+ "/" +:+ repository slug +:+ "/<binary-name>@" +:+ tag.

(** The field used for stripping: the label when it is a string that ends
    with the triple or the duple, otherwise [asset.name!], which is
    [undefined] when the asset has no name. *)
Definition matchField (asset : Asset) : option string :=
  if whenString (asset_label asset)
       (fun label => endsWith label targetTriple || endsWith label targetDuple)
  then asset_label asset
  else asset_name asset.

Definition findMatchingReleaseAssetMetadata
  (releaseMetadata : ReleaseMetadataResponse) (binaryName : option string)
  : Outcome ReleaseAssetMetadata :=
  match binaryName with
  | Some b =>
      match find (namedMatch b) (data_assets releaseMetadata) with
      | None => Throw (notFoundNamed b)
      | Some asset =>
          Return {| binaryName := Some b; url := asset_url asset;
                    name := nameOrEmpty asset |}
      end
  | None =>
      let matchingAssets := List.filter unnamedMatch (data_assets releaseMetadata) in
      match matchingAssets with
      | [] => Throw notFoundUnnamed
      | _ :: _ :: _ => Throw (ambiguous (length matchingAssets))
      | [asset] =>
          match matchField asset with
          | Some field =>
              Return {| binaryName := stripTargetTriple field;
                        url := asset_url asset; name := nameOrEmpty asset |}
          | None =>
              (* [stripTargetTriple(undefined)]: both [find] calls give
                 [undefined], then the first [reduce] step reads
                 [undefined.replace]. *)
              ThrowTypeError
          end
      end
  end.

End Matcher.

(** ** Text utilities of the target parser *)

Module Text.

Fixpoint allChars (p : ascii → bool) (s : string) : bool :=
  match s with
  | EmptyString => true
  | String c rest => p c && allChars p rest
  end.

Definition isEmpty (s : string) : bool := String.eqb s "".

Definition isDigit (c : ascii) : bool :=
  let n := nat_of_ascii c in (48 <=? n) && (n <=? 57).

Definition isLetter (c : ascii) : bool :=
  let n := nat_of_ascii c in
  ((65 <=? n) && (n <=? 90)) || ((97 <=? n) && (n <=? 122)).

Definition isAlphanumericOrHyphen (c : ascii) : bool :=
  isDigit c || isLetter c || Ascii.eqb c "-".

Definition isLowercaseHex (c : ascii) : bool :=
  let n := nat_of_ascii c in
  isDigit c || ((97 <=? n) && (n <=? 102)).

Definition allWhitespace (s : string) : bool := allChars Ascii.is_space s.

Definition noWhitespace (s : string) : bool :=
  allChars (fun c => negb (Ascii.is_space c)) s.

(** The text before and after the first occurrence of [c]. *)
Fixpoint splitFirst (c : ascii) (s : string) : option (string * string) :=
  match s with
  | EmptyString => None
  | String a rest =>
      if Ascii.eqb a c then Some ("", rest)
      else match splitFirst c rest with
           | Some (before, after) => Some (String a before, after)
           | None => None
           end
  end.

(** The text before the first [c], and the text after it when there is one. *)
Definition splitOptional (c : ascii) (s : string) : string * option string :=
  match splitFirst c s with
  | Some (before, after) => (before, Some after)
  | None => (s, None)
  end.

(** The pieces between the occurrences of [c]. *)
Fixpoint splitOn (c : ascii) (s : string) : list string :=
  match s with
  | EmptyString => [""]
  | String a rest =>
      if Ascii.eqb a c then "" :: splitOn c rest
      else match splitOn c rest with
           | piece :: pieces => String a piece :: pieces
           | [] => [String a ""]
           end
  end.

(** [s] without the literal [literal] in front of it. *)
Fixpoint dropPrefix (literal s : string) : option string :=
  match literal, s with
  | EmptyString, _ => Some s
  | String a literal', String b s' =>
      if Ascii.eqb a b then dropPrefix literal' s' else None
  | String _ _, EmptyString => None
  end.

Fixpoint trimStart (s : string) : string :=
  match s with
  | EmptyString => EmptyString
  | String c rest => if Ascii.is_space c then trimStart rest else s
  end.

Fixpoint trimEnd (s : string) : string :=
  match s with
  | EmptyString => EmptyString
  | String c rest =>
      let r := trimEnd rest in
      if Ascii.is_space c && isEmpty r then EmptyString else String c r
  end.

Definition trim (s : string) : string := trimEnd (trimStart s).

Definition flush (current : string) : list string :=
  if isEmpty current then [] else [current].

(** The maximal runs of characters other than whitespace, in order;
    [current] is the run being read. *)
Fixpoint tokensFrom (current : string) (s : string) : list string :=
  match s with
  | EmptyString => flush current
  | String c rest =>
      if Ascii.is_space c then flush current ++ tokensFrom "" rest
      else tokensFrom (current +:+ String c "") rest
  end.

Definition splitWhitespace (s : string) : list string := tokensFrom "" s.

End Text.
Import Text.

(** ** src/types.ts *)

Module Types.

(** Modelled from the spec: the version grammar of [src/types.ts], which is
    not among the sources: the literal v, one to three dot-separated numeric
    components, an optional hyphen and prerelease, an optional plus and build
    metadata, both dot-separated groups of alphanumeric characters and
    hyphens. *)
Definition isIdentifiers (s : string) : bool :=
  forallb (fun group => negb (isEmpty group) && allChars isAlphanumericOrHyphen group)
          (splitOn "." s).

Definition optionalIdentifiers (o : option string) : bool :=
  match o with
  | Some s => isIdentifiers s
  | None => true
  end.

Definition isNumeric (s : string) : bool := negb (isEmpty s) && allChars isDigit s.

(** The number of numeric components of a version, when [s] is one. *)
Definition versionComponents (s : string) : option nat :=
  match s with
  | String "v" rest =>
      let '(beforeBuild, build) := splitOptional "+" rest in
      let '(core, prerelease) := splitOptional "-" beforeBuild in
      let components := splitOn "." core in
      if forallb isNumeric components
         && optionalIdentifiers prerelease && optionalIdentifiers build
      then Some (length components)
      else None
  | _ => None
  end.

Definition isSemanticVersion (s : string) : bool :=
  match versionComponents s with
  | Some n => (1 <=? n) && (n <=? 3)
  | None => false
  end.

(** Modelled from the spec: [isExactSemanticVersion] of [src/types.ts]: a
    version "with major.minor.patch all present". *)
Definition isExactSemanticVersion (s : string) : bool :=
  match versionComponents s with
  | Some n => n =? 3
  | None => false
  end.

Record TargetRelease := {
  target_slug : RepositorySlug;
  target_binaryName : option string;
  target_tag : string;
  target_checksum : option string
}.

End Types.
Import Types.

(** ** src/either.ts and src/parse.ts *)

Module Parse.

(** Modelled from the spec: the result type of [src/either.ts], success or
    failure with messages. *)
Inductive Either (A : Type) : Type :=
| ok (value : A)
| error (messages : list string).
Arguments ok {A} value.
Arguments error {A} messages.

(** Modelled from the spec: the parts owner, repository and binaryName of a
    target, "non-empty sequences excluding /, @, whitespace". *)
Definition isNamePart (s : string) : bool :=
  negb (isEmpty s) &&
  allChars (fun c => negb (Ascii.eqb c "/" || Ascii.eqb c "@" || Ascii.is_space c)) s.

(** Modelled from the spec: the checksum, "exactly 64 lowercase hex
    characters following the literal sha256-". *)
Definition parseChecksum (s : string) : option string :=
  match dropPrefix "sha256-" s with
  | Some digest =>
      if (String.length digest =? 64) && allChars isLowercaseHex digest
      then Some digest else None
  | None => None
  end.

(** Modelled from the spec: one target of [src/parse.ts], following the
    grammar owner "/" repository ["/" binaryName] "@" tag [":sha256-" checksum]. *)
Definition parseTargetRelease (token : string) : option TargetRelease :=
  match splitFirst "@" token with
  | None => None
  | Some (path, reference) =>
      let '(tag, checksumPart) := splitOptional ":" reference in
      let checksum :=
        match checksumPart with
        | Some part => option_map Some (parseChecksum part)
        | None => Some None
        end in
      let names :=
        match splitOn "/" path with
        | [o; r] => Some (o, r, None)
        | [o; r; b] => Some (o, r, Some b)
        | _ => None
        end in
      match names, checksum with
      | Some (o, r, b), Some checksum =>
          if isNamePart o && isNamePart r && from_option isNamePart true b
             && isSemanticVersion tag
          then Some {| target_slug := {| owner := o; repository := r |};
                       target_binaryName := b;
                       target_tag := tag;
                       target_checksum := checksum |}
          else None
      | _, _ => None
      end
  end.

(** The diagnostic for a token that is not a target; the spec does not fix
    its text. *)
Definition diagnostic (token : string) : string :=
  "Could not parse target: " +:+ token.

Definition diagnostics (tokens : list string) : list string :=
  flat_map (fun token =>
              match parseTargetRelease token with
              | Some _ => []
              | None => [diagnostic token]
              end) tokens.

(** Modelled from the spec: [parseTargetReleases] of [src/parse.ts], which
    "trims surrounding whitespace, splits on whitespace runs, parses each
    token independently, and fails the whole parse (collecting at least one
    diagnostic message) if any token fails or if the input contains no
    tokens". *)
Definition parseTargetReleases (input : string) : Either (list TargetRelease) :=
  let tokens := splitWhitespace (trim input) in
  match tokens with
  | [] => error ["No targets given"]
  | _ =>
      match diagnostics tokens with
      | [] => ok (omap parseTargetRelease tokens)
      | messages => error messages
      end
  end.

End Parse.
Import Parse.

(** ** src/fetch.ts: the candidates of the named mode *)

(** [field] is one of the candidate strings of the named mode for the
    binary [b]: the name with the triple, with the duple, or, when an
    underscore duple is supplied, with the underscore duple. *)
Definition isCandidate (targetTriple targetDuple : string)
  (targetDupleUnderscore : option string) (b field : string) : Prop :=
  field = b +:+ "-" +:+ targetTriple ∨
  field = b +:+ "-" +:+ targetDuple ∨
  ∃ u, targetDupleUnderscore = Some u ∧ field = b +:+ "_" +:+ u.

(** The label or the name of the asset is a candidate string. *)
Definition carriesCandidate (targetTriple targetDuple : string)
  (targetDupleUnderscore : option string) (b : string) (asset : Asset) : Prop :=
  ∃ field,
    (asset_label asset = Some field ∨ asset_name asset = Some field) ∧
    isCandidate targetTriple targetDuple targetDupleUnderscore b field.

(** ** src/fetch.ts: reading the tag listing *)

(** The tag is an exact version of the commit [S]. *)
Definition exactAt (isExact : string → bool) (S : string) (t : Tag) : bool :=
  isExact (tag_name t) && strictEq (sha (tag_commit t)) S.

(** The tag carries the given reference. *)
Definition named (r : string) (t : Tag) : bool := strictEq (tag_name t) r.

(** The tag is the given reference or an exact version: the tags the
    reducer does not pass over. *)
Definition relevant (isExact : string → bool) (r : string) (t : Tag) : bool :=
  named r t || isExact (tag_name t).

(** What the resolver holds while it scans for the exact tags of the commit
    [S]: the hash of the given tag once that tag has gone by, and, under
    [S], the exact tags gone by, [pending] being the first of them; the scan
    stops as soon as it has both. *)
Definition scanState (isExact : string → bool) (S : string) (seenGiven : bool)
  (pending : option string) (st : ReducerState) : Prop :=
  givenTagSha st = (if seenGiven then Some S else None) ∧
  match pending with
  | Some e => isExact e = true ∧ ∃ others, versionsBySha st !! S = Some (e :: others)
  | None => versionsBySha st !! S = None
  end ∧
  (seenGiven = true → pending = None).

(** What is known of the tags read so far: every version recorded under a
    hash is exact and was read with that hash, and the hash of the given
    tag was read with the given tag. *)
Definition recorded (isExact : string → bool) (r : string) (seen : list Tag)
  (st : ReducerState) : Prop :=
  (∀ S versions v, versionsBySha st !! S = Some versions → In v versions →
                   isExact v = true ∧ In (tagged v S) seen) ∧
  (∀ S, givenTagSha st = Some S → In (tagged r S) seen).

(** ** src/main.ts *)

(** [c.toLowerCase()] on a code unit below 256: the letters A to Z and the
    capital letters of Latin-1 (all of 192 to 222 but the multiplication
    sign) move up by 32. *)
Definition toLowerCaseChar (c : ascii) : ascii :=
  let n := nat_of_ascii c in
  if ((65 <=? n) && (n <=? 90)) || ((192 <=? n) && (n <=? 222) && negb (n =? 215))
  then ascii_of_nat (n + 32)
  else c.

Fixpoint toLowerCase (s : string) : string :=
  match s with
  | EmptyString => EmptyString
  | String c rest => String (toLowerCaseChar c) (toLowerCase rest)
  end.

Definition isZipFile (filename : string) : bool :=
  endsWith (toLowerCase filename) ".zip".

(** The two calls of the client the resolution makes: the pages of
    [repos.listTags] for a repository, and [repos.getReleaseByTag], which can
    fail. *)
Record Octokit := {
  listTags : RepositorySlug → list (list Tag);
  getReleaseByTag : RepositorySlug → string → Outcome ReleaseMetadataResponse
}.

Definition fetchReleaseAssetMetadataFromTag (octokit : Octokit)
  (slug : RepositorySlug) (binaryName : option string)
  (tag targetTriple targetDuple : string) (targetDupleUnderscore : option string)
  : Outcome ReleaseAssetMetadata :=
  match getReleaseByTag octokit slug tag with
  | Return releaseMetadata =>
      findMatchingReleaseAssetMetadata slug tag targetTriple targetDuple
        targetDupleUnderscore releaseMetadata binaryName
  | Throw m => Throw m
  | ThrowTypeError => ThrowTypeError
  end.

(** How far the resolution went into the network: the pages left in the
    iterator of the tag listing, and the tag the release was requested
    with. *)
Record Requests := {
  pagesLeft : option (list (list Tag));
  releaseRequested : option string
}.

(** The statements of [installGitHubReleaseBinary] from the platform
    identifiers to the release asset, in their order; what follows them
    works on the file system.  [getDestinationDirectory], called between the
    two requests, joins strings and cannot fail.  [pagesLeft] is [None] as
    long as the version resolver was not called. *)
Definition resolveReleaseAsset (isExactSemanticVersion : string → bool)
  (currentArch currentPlatform : string) (octokit : Octokit)
  (targetRelease : TargetRelease)
  : Outcome (string * ReleaseAssetMetadata) * Requests :=
  let untouched := {| pagesLeft := None; releaseRequested := None |} in
  match getTargetTriple currentArch currentPlatform with
  | Throw m => (Throw m, untouched)
  | ThrowTypeError => (ThrowTypeError, untouched)
  | Return targetTriple =>
  match getTargetDuple currentArch currentPlatform with
  | Throw m => (Throw m, untouched)
  | ThrowTypeError => (ThrowTypeError, untouched)
  | Return targetDuple =>
  match getTargetDupleUnderscore currentArch currentPlatform with
  | Throw m => (Throw m, untouched)
  | ThrowTypeError => (ThrowTypeError, untouched)
  | Return targetDupleUnderscore =>
  let slug := target_slug targetRelease in
  match findExactSemanticVersionTag isExactSemanticVersion
          (listTags octokit slug) slug (target_tag targetRelease) with
  | (Throw m, rest) => (Throw m, {| pagesLeft := Some rest; releaseRequested := None |})
  | (ThrowTypeError, rest) =>
      (ThrowTypeError, {| pagesLeft := Some rest; releaseRequested := None |})
  | (Return releaseTag, rest) =>
      let requests := {| pagesLeft := Some rest; releaseRequested := Some releaseTag |} in
      match fetchReleaseAssetMetadataFromTag octokit slug
              (target_binaryName targetRelease) releaseTag targetTriple
              targetDuple (Some targetDupleUnderscore) with
      | Return releaseAsset => (Return (releaseTag, releaseAsset), requests)
      | Throw m => (Throw m, requests)
      | ThrowTypeError => (ThrowTypeError, requests)
      end
  end end end end.

(** ** Inputs of the target parser *)

(** A token: a non-empty run of characters other than whitespace. *)
Definition isToken (s : string) : bool := negb (isEmpty s) && noWhitespace s.

(** A separator: a non-empty run of whitespace. *)
Definition isSeparator (s : string) : bool := negb (isEmpty s) && allWhitespace s.

(** The tokens that follow the first one, each behind its separator. *)
Fixpoint separated (rest : list (string * string)) : string :=
  match rest with
  | [] => ""
  | (separator, token) :: rest' => separator +:+ token +:+ separated rest'
  end.

(** An input text: leading whitespace, a first token, further tokens each
    behind a separator, trailing whitespace. *)
Definition layout (lead first : string) (rest : list (string * string))
  (trail : string) : string :=
  lead +:+ first +:+ separated rest +:+ trail.

(** ** Fixtures of the test suite *)

Definition testSlug : RepositorySlug :=
  {| owner := "testowner"; repository := "testrepo" |}.

(** An asset with a label and no name, as the tests build them. *)
Definition labelled (label url : string) : Asset :=
  {| asset_label := Some label; asset_name := None; asset_url := url |}.

(** Two commits of a tag listing. *)
Definition commitA : string := "1a2b3c4d5e6f708192a3b4c5d6e7f8091a2b3c4d".
Definition commitB : string := "ffeeddccbbaa99887766554433221100ffeeddcc".

(** An asset with a label and a name, as the release API delivers them. *)
Definition uploaded (label name url : string) : Asset :=
  {| asset_label := Some label; asset_name := Some name; asset_url := url |}.

(** A client whose repository has two tags and no release, and a target. *)
Definition noRelease : Octokit :=
  {| listTags := fun _ => [[tagged "v1" commitA; tagged "v1.2.3" commitA]];
     getReleaseByTag := fun _ _ => Throw "Not Found" |}.

Definition someTarget : TargetRelease :=
  {| target_slug := testSlug; target_binaryName := None; target_tag := "v1";
     target_checksum := None |}.

(** * Properties *)

(** ** Strings *)

Section StringFacts.

Implicit Types s t x y : string.

Lemma append_cons a s t : String a s +:+ t = String a (s +:+ t).
Proof. reflexivity. Qed.

Lemma append_nil_l s : "" +:+ s = s.
Proof. reflexivity. Qed.

Lemma append_nil_r s : s +:+ "" = s.
Proof. induction s as [|a s IH]; [done|]. by rewrite append_cons, IH. Qed.

Lemma append_assoc s t x : (s +:+ t) +:+ x = s +:+ t +:+ x.
Proof. induction s as [|a s IH]; [done|]. by rewrite !append_cons, IH. Qed.

Lemma length_append s t :
  String.length (s +:+ t) = String.length s + String.length t.
Proof. induction s as [|a s IH]; [done|]. rewrite append_cons. simpl. by rewrite IH. Qed.

Lemma eqb_length_ne s t :
  String.length s ≠ String.length t → String.eqb s t = false.
Proof. intros Hlen. apply String.eqb_neq. by intros ->. Qed.

Lemma strictEq_true s t : strictEq s t = true ↔ s = t.
Proof. apply String.eqb_eq. Qed.

Lemma strictEq_false s t : strictEq s t = false ↔ s ≠ t.
Proof. apply String.eqb_neq. Qed.

Lemma strictEq_refl s : strictEq s s = true.
Proof. apply String.eqb_refl. Qed.

Lemma append_ne_self s a t : s ≠ s +:+ String a t.
Proof.
  intros Heq. apply (f_equal String.length) in Heq.
  rewrite length_append in Heq. simpl in Heq. lia.
Qed.

Lemma endsWith_nil x : endsWith "" x = strictEq "" x.
Proof. unfold strictEq. simpl. apply orb_false_r. Qed.

Lemma endsWith_cons a s x :
  endsWith (String a s) x = strictEq (String a s) x || endsWith s x.
Proof. reflexivity. Qed.

(** [endsWith] is the suffix relation. *)
Lemma endsWith_true s x : endsWith s x = true ↔ ∃ p, s = p +:+ x.
Proof.
  induction s as [|a s IH].
  - rewrite endsWith_nil, strictEq_true. split.
    + intros <-. by exists "".
    + intros [[|b p] Hp]; [done|]. by rewrite append_cons in Hp.
  - rewrite endsWith_cons, orb_true_iff, strictEq_true, IH. split.
    + intros [<-|[p ->]]; [by exists ""|]. by exists (String a p).
    + intros [[|b p] Hp]; [by left|].
      rewrite append_cons in Hp. injection Hp as -> ->. right. by exists p.
Qed.

Lemma endsWith_refl s : endsWith s s = true.
Proof. apply endsWith_true. by exists "". Qed.

Lemma endsWith_append s x : endsWith (s +:+ x) x = true.
Proof. apply endsWith_true. by exists s. Qed.

Lemma endsWith_cons_false a s x :
  endsWith (String a s) x = false → endsWith s x = false.
Proof. rewrite endsWith_cons. by intros [_ ?]%orb_false_iff. Qed.

(** Two ways of cutting one string: the shorter end is an end of the longer. *)
Lemma append_eq_suffix s x t y :
  s +:+ x = t +:+ y → String.length x ≤ String.length y →
  ∃ z, y = z +:+ x.
Proof.
  revert t. induction s as [|a s IH]; intros t Heq Hlen.
  - rewrite append_nil_l in Heq. subst x.
    rewrite length_append in Hlen.
    destruct t as [|b t]; [by exists ""|]. simpl in Hlen. lia.
  - destruct t as [|b t].
    + rewrite append_nil_l in Heq. subst y. by exists (String a s).
    + rewrite !append_cons in Heq. injection Heq as _ Heq. by apply (IH t).
Qed.

Lemma endsWith_append_false s x y :
  endsWith x y = false → endsWith y x = false → endsWith (s +:+ x) y = false.
Proof.
  intros Hxy Hyx. apply not_true_is_false. intros [p Hp]%endsWith_true.
  destruct (Nat.le_gt_cases (String.length x) (String.length y)) as [Hle|Hgt].
  - destruct (append_eq_suffix _ _ _ _ Hp Hle) as [z ->].
    by rewrite endsWith_append in Hyx.
  - symmetry in Hp. destruct (append_eq_suffix _ _ _ _ Hp) as [z ->]; [lia|].
    by rewrite endsWith_append in Hxy.
Qed.

(** The pattern matches: the separator and the literal are removed. *)
Lemma replaceSuffix_append seps literal s c :
  In c seps → replaceSuffix seps literal (s +:+ String c literal) = s.
Proof.
  intros Hc. induction s as [|a s IH].
  - rewrite append_nil_l. simpl. rewrite String.eqb_refl, andb_true_r.
    replace (existsb (Ascii.eqb c) seps) with true; [done|].
    symmetry. apply existsb_exists. exists c. by rewrite Ascii.eqb_refl.
  - rewrite append_cons. simpl. rewrite IH.
    rewrite (eqb_length_ne (s +:+ String c literal) literal), andb_false_r; [done|].
    rewrite length_append. simpl. lia.
Qed.

(** The pattern does not match: the string is returned as it is. *)
Lemma replaceSuffix_id seps literal s :
  (∀ c, In c seps → endsWith s (String c literal) = false) →
  replaceSuffix seps literal s = s.
Proof.
  induction s as [|a s IH]; intros Hno; [done|]. simpl.
  destruct (existsb (Ascii.eqb a) seps && String.eqb s literal) eqn:Hm.
  - apply andb_true_iff in Hm as [Ha Hs].
    apply existsb_exists in Ha as (c & Hc & Hac).
    apply Ascii.eqb_eq in Hac as ->. apply String.eqb_eq in Hs as ->.
    specialize (Hno c Hc). by rewrite endsWith_refl in Hno.
  - f_equal. apply IH. intros c Hc. by eapply endsWith_cons_false, Hno.
Qed.

End StringFacts.

(** ** src/platform.ts: stripping the platform suffix *)

Section Stripping.

Variable seps : list ascii.

Local Abbreviation strip := (fun value x => replaceSuffix seps x value).

(** A [reduce] over a table none of whose entries ends [s] returns [s]. *)
Lemma reduce_unchanged (table : list string) (s : string) :
  (∀ d c, In d table → In c seps → endsWith s (String c d) = false) →
  fold_left strip table s = s.
Proof.
  induction table as [|y rest IH]; intros Hno; [done|]. simpl.
  rewrite replaceSuffix_id; [|intros c Hc; apply Hno; simpl; auto].
  apply IH. intros d c Hd Hc. apply Hno; simpl; auto.
Qed.

(** A [reduce] over a table strips [sep] and [d] when it reaches [d], and
    then goes on with the entries listed after [d]. *)
Lemma reduce_strips (table : list string) (s d : string) (sep : ascii) :
  In sep seps → In d table →
  unrelatedSuffixes seps table sep d = true →
  fold_left strip table (s +:+ String sep d) =
  fold_left strip (listedAfter d table) s.
Proof.
  intros Hsep. induction table as [|y rest IH]; intros Hd Hun; [done|].
  simpl in Hun. apply andb_true_iff in Hun as [Hy Hrest]. simpl.
  destruct (strictEq y d) eqn:Hyd.
  - apply strictEq_true in Hyd as ->. by rewrite replaceSuffix_append.
  - rewrite replaceSuffix_id.
    + apply IH; [|done]. destruct Hd as [->|Hd]; [|done].
      by rewrite strictEq_refl in Hyd.
    + intros c Hc. simpl in Hy.
      rewrite forallb_forall in Hy. specialize (Hy c Hc).
      apply andb_true_iff in Hy as [H1 H2].
      apply endsWith_append_false; by apply negb_true_iff.
Qed.

End Stripping.

Lemma findEqual_append_false (table : list string) (s x : string) :
  forallb (fun y => negb (endsWith y x)) table = true →
  findEqual table (s +:+ x) = false.
Proof.
  intros Hall. apply not_true_is_false. unfold findEqual.
  intros (y & Hy & Heq)%existsb_exists. apply strictEq_true in Heq as ->.
  rewrite forallb_forall in Hall. specialize (Hall _ Hy).
  by rewrite endsWith_append in Hall.
Qed.

Lemma stripTriples_unchanged (s : string) :
  (∀ t, In t ALL_TARGET_TRIPLES → endsWith s (String "-" t) = false) →
  stripTriples s = s.
Proof.
  intros Hno. apply reduce_unchanged. intros d c Hd [<-|[]]. by apply Hno.
Qed.

(** What [stripTargetTriple] returns on a string that is not itself one of
    the enumerated identifiers. *)
Lemma stripTargetTriple_unfold (value : string) :
  findEqual ALL_TARGET_TRIPLES value = false →
  findEqual TARGET_DUPLES value = false →
  stripTargetTriple value =
  Some (if negb (strictEq (stripTriples value) value) then stripTriples value
        else stripDuples value).
Proof.
  intros H1 H2. unfold stripTargetTriple. rewrite H1, H2.
  destruct (negb (strictEq (stripTriples value) value)); [done|].
  destruct (negb (strictEq (stripDuples value) value)) eqn:Hd; [done|].
  apply negb_false_iff, strictEq_true in Hd. by rewrite Hd.
Qed.

Lemma strictEq_append_false (s : string) (a : ascii) (t : string) :
  strictEq s (s +:+ String a t) = false.
Proof. apply strictEq_false, append_ne_self. Qed.

(** Case analysis on membership in a concrete table. *)
Ltac each_entry H :=
  repeat (destruct H as [<-|H]); [..|destruct H].

Lemma strip_triple_suffix (name t : string) :
  In t ALL_TARGET_TRIPLES →
  (∀ t', In t' (listedAfter t ALL_TARGET_TRIPLES) →
         endsWith name ("-" +:+ t') = false) →
  stripTargetTriple (name +:+ "-" +:+ t) = Some name.
Proof.
  intros Ht Hafter. change ("-" +:+ t) with (String "-" t).
  assert (stripTriples (name +:+ String "-" t) = name) as Hstrip.
  { unfold stripTriples. rewrite (reduce_strips hyphen).
    - apply reduce_unchanged. intros d c Hd [<-|[]]. by apply Hafter.
    - by left.
    - done.
    - each_entry Ht; reflexivity. }
  rewrite stripTargetTriple_unfold, Hstrip.
  - by rewrite strictEq_append_false.
  - apply findEqual_append_false. each_entry Ht; reflexivity.
  - apply findEqual_append_false. each_entry Ht; reflexivity.
Qed.

Lemma strip_duple_suffix (name d : string) (sep : ascii) :
  In d TARGET_DUPLES → In sep hyphenOrUnderscore →
  (∀ d' sep', In d' (listedAfter d TARGET_DUPLES) → In sep' hyphenOrUnderscore →
              endsWith name (String sep' d') = false) →
  stripTargetTriple (name +:+ String sep d) = Some name.
Proof.
  intros Hd Hsep Hafter.
  assert (stripTriples (name +:+ String sep d) = name +:+ String sep d) as Htriples.
  { apply stripTriples_unchanged. intros t Ht.
    apply endsWith_append_false;
      each_entry Ht; each_entry Hd; each_entry Hsep; reflexivity. }
  assert (stripDuples (name +:+ String sep d) = name) as Hduples.
  { unfold stripDuples. rewrite (reduce_strips hyphenOrUnderscore); [|done..|].
    - apply reduce_unchanged. intros d' c Hd' Hc. by apply Hafter.
    - each_entry Hd; each_entry Hsep; reflexivity. }
  rewrite stripTargetTriple_unfold, Htriples, Hduples.
  - by rewrite strictEq_refl.
  - apply findEqual_append_false. each_entry Hd; each_entry Hsep; reflexivity.
  - apply findEqual_append_false. each_entry Hd; each_entry Hsep; reflexivity.
Qed.

(** C3, as the code has it: for every enumerated triple [t] and every [name]
    that does not itself end in a hyphen followed by a triple listed after
    [t], [stripTargetTriple (name + "-" + t)] is present [name]; and for every
    enumerated duple [d], behind a hyphen or an underscore, and every [name]
    that does not end in a separator followed by a duple listed after [d],
    [stripTargetTriple (name + sep + d)] is present [name]. *)
Theorem stripTargetTriple_strips_listed_suffix (name : string) :
  (∀ t, In t ALL_TARGET_TRIPLES →
        (∀ t', In t' (listedAfter t ALL_TARGET_TRIPLES) →
               endsWith name ("-" +:+ t') = false) →
        stripTargetTriple (name +:+ "-" +:+ t) = Some name) ∧
  (∀ d sep, In d TARGET_DUPLES → In sep hyphenOrUnderscore →
            (∀ d' sep', In d' (listedAfter d TARGET_DUPLES) →
                        In sep' hyphenOrUnderscore →
                        endsWith name (String sep' d') = false) →
            stripTargetTriple (name +:+ String sep d) = Some name).
Proof.
  split.
  - intros t. apply strip_triple_suffix.
  - intros d sep. apply strip_duple_suffix.
Qed.

Lemma stripTargetTriple_strips_listed_suffix_witness :
  stripTargetTriple ("darwin-thing" +:+ "-" +:+ "aarch64-apple-darwin")
    = Some "darwin-thing" ∧
  stripTargetTriple ("myapp" +:+ String "_" "linux_arm64") = Some "myapp".
Proof.
  split.
  - apply (proj1 (stripTargetTriple_strips_listed_suffix "darwin-thing")).
    + simpl. auto.
    + intros t' Ht'. simpl in Ht'.
      destruct Ht' as [<-|[<-|[<-|[]]]]; reflexivity.
  - apply (proj2 (stripTargetTriple_strips_listed_suffix "myapp")).
    + simpl. auto 10.
    + simpl. auto.
    + intros d' sep' Hd' Hsep'. simpl in Hd', Hsep'.
      destruct Hd' as [<-|[<-|[]]]; destruct Hsep' as [<-|[<-|[]]]; reflexivity.
Defined.

(** C3, as the spec has it, fails: the [reduce] does not stop at the first
    match, so a name that ends in a triple listed later loses it as well. *)
Lemma stripTargetTriple_strips_two_suffixes :
  In "aarch64-apple-darwin" ALL_TARGET_TRIPLES ∧
  stripTargetTriple ("foo-x86_64-apple-darwin" +:+ "-" +:+ "aarch64-apple-darwin")
    = Some "foo" ∧
  stripTargetTriple ("foo-x86_64-apple-darwin" +:+ "-" +:+ "aarch64-apple-darwin")
    ≠ Some "foo-x86_64-apple-darwin".
Proof. split; [simpl; auto|]. split; [reflexivity|discriminate]. Qed.

(** ** src/platform.ts: the target duple *)

Lemma getTargetDuple_unsupported_platform (arch platform : string) :
  platform ≠ "darwin" → platform ≠ "linux" →
  getTargetDuple arch platform =
    Throw ("Unsupported platform " +:+ platform +:+ " for target duple conversion") ∧
  getTargetDupleUnderscore arch platform =
    Throw ("Unsupported platform " +:+ platform +:+ " for target duple conversion").
Proof.
  intros Hd%strictEq_false Hl%strictEq_false.
  unfold getTargetDuple, getTargetDupleUnderscore. by rewrite Hd, Hl.
Qed.

(** On a supported platform every architecture other than arm64 is taken
    for amd64. *)
Lemma getTargetDuple_any_architecture (arch : string) :
  arch ≠ "arm64" →
  getTargetDuple arch "darwin" = Return "darwin-amd64" ∧
  getTargetDuple arch "linux" = Return "linux-amd64" ∧
  getTargetDupleUnderscore arch "darwin" = Return "darwin_amd64" ∧
  getTargetDupleUnderscore arch "linux" = Return "linux_amd64".
Proof.
  intros Ha%strictEq_false.
  unfold getTargetDuple, getTargetDupleUnderscore. simpl. by rewrite Ha.
Qed.

(** C7 at an architecture the program does not support: [getTargetTriple]
    rejects it, [getTargetDuple] and [getTargetDupleUnderscore] return the
    amd64 duple. *)
Theorem getTargetDuple_accepts_unsupported_architecture :
  getTargetTriple "ia32" "linux" =
    Throw "Unsupported architecture ia32 -- only aarch64 and x86_64 currently supported" ∧
  getTargetDuple "ia32" "linux" = Return "linux-amd64" ∧
  getTargetDupleUnderscore "ia32" "linux" = Return "linux_amd64".
Proof. repeat split; reflexivity. Qed.

Lemma findEqual_true (table : list string) (value : string) :
  findEqual table value = true ↔ In value table.
Proof.
  unfold findEqual. rewrite existsb_exists. split.
  - by intros (x & Hx & ->%strictEq_true).
  - intros Hin. exists value. by rewrite strictEq_refl.
Qed.

(** [stripTargetTriple] is absent exactly on the enumerated identifiers. *)
Lemma stripTargetTriple_None (value : string) :
  stripTargetTriple value = None ↔
  In value ALL_TARGET_TRIPLES ∨ In value TARGET_DUPLES.
Proof.
  rewrite <- !findEqual_true. unfold stripTargetTriple.
  destruct (findEqual ALL_TARGET_TRIPLES value); [by intuition|].
  destruct (findEqual TARGET_DUPLES value); [by intuition|].
  destruct (negb _); [by intuition|]. destruct (negb _); by intuition.
Qed.

(** ** src/fetch.ts: the asset matcher *)

Section MatcherFacts.

Variables (slug : RepositorySlug) (tag targetTriple targetDuple : string)
          (targetDupleUnderscore : option string).

Local Abbreviation findAsset :=
  (findMatchingReleaseAssetMetadata slug tag targetTriple targetDuple
     targetDupleUnderscore).
Local Abbreviation candidate := (namedMatch targetTriple targetDuple targetDupleUnderscore).
Local Abbreviation platformAsset := (unnamedMatch targetTriple targetDuple targetDupleUnderscore).

Lemma find_first {A} (p : A → bool) (before : list A) (x : A) (after : list A) :
  Forall (fun a => p a = false) before → p x = true →
  find p (before ++ x :: after) = Some x.
Proof.
  intros Hbefore Hx. induction Hbefore as [|a before Ha _ IH]; simpl.
  - by rewrite Hx.
  - by rewrite Ha.
Qed.

Lemma find_none {A} (p : A → bool) (l : list A) :
  (∀ a, In a l → p a = false) → find p l = None.
Proof.
  intros Hno. destruct (find p l) as [a|] eqn:Hfind; [|done].
  apply find_some in Hfind as [Hin Hp]. by rewrite Hno in Hp.
Qed.

(** The named mode returns the first asset of the list that the callback
    accepts. *)
Lemma named_first_match (b : string) (before : list Asset) (asset : Asset)
  (after : list Asset) :
  Forall (fun a => candidate b a = false) before →
  candidate b asset = true →
  findAsset {| data_assets := before ++ asset :: after |} (Some b) =
  Return {| binaryName := Some b; url := asset_url asset; name := nameOrEmpty asset |}.
Proof.
  intros Hbefore Hasset. unfold findMatchingReleaseAssetMetadata. simpl.
  by rewrite (find_first _ _ _ _ Hbefore Hasset).
Qed.

(** An asset whose label or name is one of the candidate strings is accepted. *)
Lemma candidate_label_triple (b : string) (asset : Asset) :
  asset_label asset = Some (b +:+ "-" +:+ targetTriple) → candidate b asset = true.
Proof.
  intros Hl. unfold namedMatch, equalsCandidate, targetLabelTraditional.
  rewrite Hl. simpl. by rewrite strictEq_refl.
Qed.

Lemma candidate_label_duple (b : string) (asset : Asset) :
  asset_label asset = Some (b +:+ "-" +:+ targetDuple) → candidate b asset = true.
Proof.
  intros Hl. unfold namedMatch, equalsCandidate, targetLabelDuple.
  rewrite Hl. simpl. by rewrite strictEq_refl, orb_true_r.
Qed.

Lemma named_not_found (b : string) (assets : list Asset) :
  (∀ a, In a assets → candidate b a = false) →
  findAsset {| data_assets := assets |} (Some b) =
  Throw (notFoundNamed slug tag targetTriple targetDuple targetDupleUnderscore b).
Proof.
  intros Hno. unfold findMatchingReleaseAssetMetadata. simpl.
  by rewrite find_none.
Qed.

Lemma unnamed_many (assets : list Asset) :
  1 < length (List.filter platformAsset assets) →
  findAsset {| data_assets := assets |} None =
  Throw (ambiguous slug tag targetTriple targetDuple targetDupleUnderscore
           (length (List.filter platformAsset assets))).
Proof.
  intros Hlen. unfold findMatchingReleaseAssetMetadata. simpl.
  destruct (List.filter _ assets) as [|a [|a' l]]; simpl in Hlen; [lia..|done].
Qed.

End MatcherFacts.

Lemma truthy_append (s : string) (a : ascii) (t : string) :
  truthy (s +:+ String a t) = true.
Proof.
  unfold truthy. rewrite eqb_length_ne; [done|].
  rewrite length_append. simpl. lia.
Qed.

Lemma truthyOpt_supplied (o : option string) :
  o ≠ Some "" → truthyOpt o = bool_decide (is_Some o).
Proof.
  intros Hne. destruct o as [u|]; [|done]. simpl.
  destruct u; [done|]. done.
Qed.

(** The file extension removed by [stripExtension] is the last dot and what
    follows it. *)
Lemma extensionBody_cons (a : ascii) (s : string) :
  s ≠ "" →
  extensionBody (String a s) = negb (Ascii.eqb a ".") && extensionBody s.
Proof. by destruct s. Qed.

Lemma extensionBody_dot (s t : string) : extensionBody (s +:+ String "." t) = false.
Proof.
  induction s as [|a s IH].
  - rewrite append_nil_l. by destruct t.
  - rewrite append_cons, extensionBody_cons, IH, andb_false_r; [done|].
    by destruct s.
Qed.

Lemma stripExtension_append (s ext : string) :
  extensionBody ext = true → stripExtension (s +:+ String "." ext) = s.
Proof.
  intros Hext. induction s as [|a s IH].
  - rewrite append_nil_l. simpl. by rewrite Hext.
  - rewrite append_cons. simpl. by rewrite extensionBody_dot, andb_false_r, IH.
Qed.

Lemma stripExtension_no_dot (s : string) :
  allChars (fun c => negb (Ascii.eqb c ".")) s = true → stripExtension s = s.
Proof.
  induction s as [|a s IH]; [done|]. simpl.
  intros [Ha Hs]%andb_true_iff. apply negb_true_iff in Ha.
  by rewrite Ha, IH.
Qed.

Lemma nameOrEmpty_default (a : Asset) : nameOrEmpty a = default "" (asset_name a).
Proof.
  unfold nameOrEmpty. destruct (asset_name a) as [n|]; [|done].
  simpl. by destruct n.
Qed.

Section NamedCandidates.

Variables (targetTriple targetDuple : string)
          (targetDupleUnderscore : option string) (b : string).
Hypothesis supplied : targetDupleUnderscore ≠ Some "".

(** The three-way test of the named mode accepts the candidate strings and
    nothing else. *)
Lemma equalsCandidate_true (field : string) :
  equalsCandidate targetTriple targetDuple targetDupleUnderscore b field = true ↔
  isCandidate targetTriple targetDuple targetDupleUnderscore b field.
Proof.
  unfold equalsCandidate, isCandidate, targetLabelTraditional, targetLabelDuple,
    targetLabelDupleUnderscore.
  rewrite truthyOpt_supplied, !orb_true_iff, andb_true_iff, !strictEq_true by done.
  destruct targetDupleUnderscore as [u|]; simpl.
  - change (b +:+ "_" +:+ u) with (b +:+ String "_" u).
    rewrite truthy_append. split.
    + intros [[?|?]|[_ ?]]; eauto.
    + intros [?|[?|(u' & [= <-] & ?)]]; auto.
  - split.
    + intros [[?|?]|[? _]]; auto. done.
    + intros [?|[?|(u' & ? & _)]]; auto. done.
Qed.

(** The callback of [assets.find] accepts exactly the assets whose label or
    name is a candidate string. *)
Lemma namedMatch_true (asset : Asset) :
  namedMatch targetTriple targetDuple targetDupleUnderscore b asset = true ↔
  carriesCandidate targetTriple targetDuple targetDupleUnderscore b asset.
Proof.
  unfold namedMatch, carriesCandidate. rewrite orb_true_iff. split.
  - intros [Hl|Hn].
    + destruct (asset_label asset) as [l|]; [|done].
      exists l. split; [by left|]. by apply equalsCandidate_true.
    + destruct (asset_name asset) as [n|]; [|done].
      exists n. split; [by right|]. by apply equalsCandidate_true.
  - intros (field & [Hl|Hn] & Hc%equalsCandidate_true).
    + left. by rewrite Hl.
    + right. by rewrite Hn.
Qed.

Lemma namedMatch_false (asset : Asset) :
  namedMatch targetTriple targetDuple targetDupleUnderscore b asset = false ↔
  ¬ carriesCandidate targetTriple targetDuple targetDupleUnderscore b asset.
Proof.
  rewrite <- namedMatch_true. by destruct (namedMatch _ _ _ _ _).
Qed.

End NamedCandidates.

(** Where [find] returns an element, the list splits there. *)
Lemma find_split {A} (p : A → bool) (l : list A) (x : A) :
  find p l = Some x →
  ∃ before after,
    l = before ++ x :: after ∧ Forall (fun a => p a = false) before ∧ p x = true.
Proof.
  induction l as [|a l IH]; simpl; [done|].
  destruct (p a) eqn:Ha.
  - intros [= <-]. by exists [], l.
  - intros (before & after & -> & Hbefore & Hx)%IH.
    exists (a :: before), after. split_and!; [done| |done]. by constructor.
Qed.

(** C4, as the code has it: in named mode the asset returned is the first
    one in list order whose label or name equals a candidate string, be it
    the name with the triple, with the duple or with the supplied underscore
    duple: whatever stands before an asset that carries a candidate and
    carries none itself is passed over, and whatever stands after it is not
    looked at.  Every list that holds an asset labelled with the triple
    candidate and one labelled with the duple candidate splits in this way,
    in one way only, so that the order of the assets decides the result. *)
Theorem named_mode_returns_first_candidate
  (slug : RepositorySlug) (tag targetTriple targetDuple : string)
  (targetDupleUnderscore : option string) (b : string) :
  targetDupleUnderscore ≠ Some "" →
  (∀ before asset after,
     (∀ a, In a before →
           ¬ carriesCandidate targetTriple targetDuple targetDupleUnderscore b a) →
     carriesCandidate targetTriple targetDuple targetDupleUnderscore b asset →
     findMatchingReleaseAssetMetadata slug tag targetTriple targetDuple
       targetDupleUnderscore {| data_assets := before ++ asset :: after |} (Some b) =
     Return {| binaryName := Some b; url := asset_url asset;
               name := default "" (asset_name asset) |}) ∧
  (∀ assets,
     (∃ a, In a assets ∧ asset_label a = Some (b +:+ "-" +:+ targetTriple)) →
     (∃ a, In a assets ∧ asset_label a = Some (b +:+ "-" +:+ targetDuple)) →
     ∃ before asset after,
       assets = before ++ asset :: after ∧
       (∀ a, In a before →
             ¬ carriesCandidate targetTriple targetDuple targetDupleUnderscore b a) ∧
       carriesCandidate targetTriple targetDuple targetDupleUnderscore b asset ∧
       findMatchingReleaseAssetMetadata slug tag targetTriple targetDuple
         targetDupleUnderscore {| data_assets := assets |} (Some b) =
       Return {| binaryName := Some b; url := asset_url asset;
                 name := default "" (asset_name asset) |}).
Proof.
  intros Hsupplied.
  assert (∀ before asset after,
     (∀ a, In a before →
           ¬ carriesCandidate targetTriple targetDuple targetDupleUnderscore b a) →
     carriesCandidate targetTriple targetDuple targetDupleUnderscore b asset →
     findMatchingReleaseAssetMetadata slug tag targetTriple targetDuple
       targetDupleUnderscore {| data_assets := before ++ asset :: after |} (Some b) =
     Return {| binaryName := Some b; url := asset_url asset;
               name := default "" (asset_name asset) |}) as Hfirst.
  { intros before asset after Hbefore Hasset.
    rewrite <- nameOrEmpty_default. apply named_first_match.
    - apply List.Forall_forall. intros a Ha. apply namedMatch_false; [done|].
      by apply Hbefore.
    - by apply namedMatch_true. }
  split; [done|].
  intros assets (triple & Hin & Hlabel) _.
  destruct (find (namedMatch targetTriple targetDuple targetDupleUnderscore b) assets)
    as [asset|] eqn:Hfind.
  - apply find_split in Hfind as (before & after & -> & Hbefore & Hasset).
    assert (∀ a, In a before →
              ¬ carriesCandidate targetTriple targetDuple targetDupleUnderscore b a)
      as Hnone.
    { intros a Ha. apply namedMatch_false; [done|].
      rewrite List.Forall_forall in Hbefore. by apply Hbefore. }
    apply namedMatch_true in Hasset; [|done].
    exists before, asset, after. split_and!; [done|done|done|]. by apply Hfirst.
  - exfalso. pose proof (List.find_none _ _ Hfind triple Hin) as Hno.
    apply namedMatch_false in Hno; [|done]. apply Hno.
    exists (b +:+ "-" +:+ targetTriple). split; [by left|]. by left.
Qed.

Lemma named_mode_returns_first_candidate_witness :
  findMatchingReleaseAssetMetadata testSlug "v1.0.0" "aarch64-apple-darwin"
    "darwin-arm64" None
    {| data_assets :=
         [labelled "otherbin-aarch64-apple-darwin" "https://example.com/otherbin"]
         ++ {| asset_label := None; asset_name := Some "testbin-darwin-arm64";
               asset_url := "https://example.com/testbin-by-name" |}
         :: [labelled "testbin-aarch64-apple-darwin" "https://example.com/testbin-triple";
             labelled "testbin-darwin-arm64" "https://example.com/testbin-duple"] |}
    (Some "testbin") =
  Return {| binaryName := Some "testbin";
            url := "https://example.com/testbin-by-name";
            name := "testbin-darwin-arm64" |}.
Proof.
  destruct (named_mode_returns_first_candidate testSlug "v1.0.0"
              "aarch64-apple-darwin" "darwin-arm64" None "testbin") as [Hfirst _];
    [discriminate|].
  apply (Hfirst
           [labelled "otherbin-aarch64-apple-darwin" "https://example.com/otherbin"]
           {| asset_label := None; asset_name := Some "testbin-darwin-arm64";
              asset_url := "https://example.com/testbin-by-name" |}).
  - intros a [<-|[]] (field & [Hf|Hf] & Hc); simpl in Hf; [|discriminate Hf].
    injection Hf as <-.
    destruct Hc as [Hc|[Hc|(u & Hu & _)]]; discriminate.
  - exists "testbin-darwin-arm64". split; [by right|]. right. left. reflexivity.
Defined.

(** C4, as the spec has it, fails: with the duple asset listed first, the
    duple asset is returned. *)
Lemma named_mode_duple_listed_first :
  findMatchingReleaseAssetMetadata testSlug "v1.0.0" "aarch64-apple-darwin"
    "darwin-arm64" None
    {| data_assets :=
         [labelled "testbin-darwin-arm64" "https://example.com/testbin-duple";
          labelled "testbin-aarch64-apple-darwin" "https://example.com/testbin-triple"] |}
    (Some "testbin") =
  Return {| binaryName := Some "testbin";
            url := "https://example.com/testbin-duple"; name := "" |} ∧
  findMatchingReleaseAssetMetadata testSlug "v1.0.0" "aarch64-apple-darwin"
    "darwin-arm64" None
    {| data_assets :=
         [labelled "testbin-darwin-arm64" "https://example.com/testbin-duple";
          labelled "testbin-aarch64-apple-darwin" "https://example.com/testbin-triple"] |}
    (Some "testbin") ≠
  Return {| binaryName := Some "testbin";
            url := "https://example.com/testbin-triple"; name := "" |}.
Proof. split; [reflexivity|discriminate]. Qed.

(** C6: in named mode, when no label and no name of the list equals a
    candidate string, the call throws the message "Expected to find asset in
    release owner/repo@tag with label or name f1 or f2 [or f3]": two
    candidates without an underscore duple, three with one.  A supplied
    underscore duple is a [TargetDuple], hence not the empty string. *)
Theorem named_mode_not_found_message
  (slug : RepositorySlug) (tag targetTriple targetDuple : string)
  (targetDupleUnderscore : option string) (b : string) (assets : list Asset) :
  targetDupleUnderscore ≠ Some "" →
  (∀ a field, In a assets →
     asset_label a = Some field ∨ asset_name a = Some field →
     field ≠ b +:+ "-" +:+ targetTriple ∧
     field ≠ b +:+ "-" +:+ targetDuple ∧
     (∀ u, targetDupleUnderscore = Some u → field ≠ b +:+ "_" +:+ u)) →
  findMatchingReleaseAssetMetadata slug tag targetTriple targetDuple
    targetDupleUnderscore {| data_assets := assets |} (Some b) =
  Throw ("Expected to find asset in release " +:+
         (owner slug +:+ "/" +:+ repository slug +:+ "@" +:+ tag) +:+
         " with label or name " +:+
         match targetDupleUnderscore with
         | None =>
             (b +:+ "-" +:+ targetTriple) +:+ " or " +:+ (b +:+ "-" +:+ targetDuple)
         | Some u =>
             (b +:+ "-" +:+ targetTriple) +:+ " or " +:+ (b +:+ "-" +:+ targetDuple)
             +:+ " or " +:+ (b +:+ "_" +:+ u)
         end).
Proof.
  intros Hsupplied Hno. rewrite named_not_found.
  - unfold notFoundNamed, namedFormats, targetLabelDupleUnderscore.
    rewrite truthyOpt_supplied by done.
    by destruct targetDupleUnderscore.
  - intros a Ha. unfold namedMatch, equalsCandidate.
    assert (∀ field, asset_label a = Some field ∨ asset_name a = Some field →
            strictEq field (targetLabelTraditional targetTriple b)
            || strictEq field (targetLabelDuple targetDuple b)
            || truthy (targetLabelDupleUnderscore targetDupleUnderscore b)
               && strictEq field (targetLabelDupleUnderscore targetDupleUnderscore b)
            = false) as Hfield.
    { intros field Hf. destruct (Hno a field Ha Hf) as (H1 & H2 & H3).
      apply strictEq_false in H1, H2.
      unfold targetLabelTraditional, targetLabelDuple. rewrite H1, H2. simpl.
      unfold targetLabelDupleUnderscore.
      destruct targetDupleUnderscore as [u|]; simpl; [|done].
      destruct (truthy u); [|done].
      apply andb_false_iff. right. by apply strictEq_false, H3. }
    destruct (asset_label a) as [l|], (asset_name a) as [n|]; simpl;
      rewrite ?Hfield; auto.
Qed.

Lemma named_mode_not_found_message_witness :
  findMatchingReleaseAssetMetadata testSlug "v1.0.0" "aarch64-apple-darwin"
    "darwin-arm64" None
    {| data_assets :=
         [labelled "otherbin-aarch64-apple-darwin" "https://example.com/otherbin";
          labelled "otherbin-darwin-arm64" "https://example.com/otherbin-duple"] |}
    (Some "testbin") =
  Throw "Expected to find asset in release testowner/testrepo@v1.0.0 with label or name testbin-aarch64-apple-darwin or testbin-darwin-arm64".
Proof.
  apply (named_mode_not_found_message testSlug "v1.0.0" "aarch64-apple-darwin"
           "darwin-arm64" None "testbin").
  - discriminate.
  - intros a field [<-|[<-|[]]] [Hf|Hf]; simpl in Hf; try discriminate;
      injection Hf as <-; repeat split; discriminate.
Defined.

(** C5: in unnamed mode, when more than one asset has a label or a name
    that, without its file extension, ends with the triple, the duple or the
    underscore duple, the call throws the message "Ambiguous targets: ... but
    found n. ... To resolve, ..." where n is the number of such assets and the
    underscore duple is listed exactly when it is supplied. *)
Theorem unnamed_mode_ambiguous_message
  (slug : RepositorySlug) (tag targetTriple targetDuple : string)
  (targetDupleUnderscore : option string) (assets : list Asset) :
  targetDupleUnderscore ≠ Some "" →
  1 < length (List.filter
                (unnamedMatch targetTriple targetDuple targetDupleUnderscore) assets) →
  findMatchingReleaseAssetMetadata slug tag targetTriple targetDuple
    targetDupleUnderscore {| data_assets := assets |} None =
  Throw ("Ambiguous targets: expected to find a single asset in release " +:+
         (owner slug +:+ "/" +:+ repository slug +:+ "@" +:+ tag) +:+
         " containing platform identifier " +:+
         match targetDupleUnderscore with
         | None => targetTriple +:+ " or " +:+ targetDuple
         | Some u => targetTriple +:+ " or " +:+ targetDuple +:+ " or " +:+ u
         end +:+
         " at the end of the filename (before the extension), but found " +:+
         numberToString
           (length (List.filter
                      (unnamedMatch targetTriple targetDuple targetDupleUnderscore)
                      assets)) +:+
         "." +:+ String "010" (String "010"
         "To resolve, specify the desired binary with the target format ") +:+
         owner slug +:+ "/" +:+ repository slug +:+ "/<binary-name>@" +:+ tag).
Proof.
  intros Hsupplied Hmany. rewrite unnamed_many by done.
  unfold ambiguous, unnamedFormats. rewrite truthyOpt_supplied by done.
  by destruct targetDupleUnderscore.
Qed.

Lemma unnamed_mode_ambiguous_message_witness :
  findMatchingReleaseAssetMetadata testSlug "v1.0.0" "aarch64-apple-darwin"
    "darwin-arm64" (Some "darwin_arm64")
    {| data_assets :=
         [labelled "bin1-aarch64-apple-darwin" "https://example.com/bin1-triple";
          labelled "bin2-darwin-arm64.zip" "https://example.com/bin2-duple";
          labelled "bin3_darwin_arm64" "https://example.com/bin3";
          labelled "bin4-windows-x64" "https://example.com/bin4"] |}
    None =
  Throw ("Ambiguous targets: expected to find a single asset in release testowner/testrepo@v1.0.0 containing platform identifier aarch64-apple-darwin or darwin-arm64 or darwin_arm64 at the end of the filename (before the extension), but found 3." +:+
         String "010" (String "010" "To resolve, specify the desired binary with the target format testowner/testrepo/<binary-name>@v1.0.0")).
Proof.
  apply (unnamed_mode_ambiguous_message testSlug "v1.0.0" "aarch64-apple-darwin"
           "darwin-arm64" (Some "darwin_arm64")).
  - discriminate.
  - vm_compute. lia.
Defined.

(** ** The unnamed mode with a single matching asset *)

Section SingleMatch.

Variables (slug : RepositorySlug) (tag targetTriple targetDuple : string)
          (targetDupleUnderscore : option string).

Local Abbreviation findAsset :=
  (findMatchingReleaseAssetMetadata slug tag targetTriple targetDuple
     targetDupleUnderscore).
Local Abbreviation platformAsset := (unnamedMatch targetTriple targetDuple targetDupleUnderscore).

Lemma unnamed_single (assets : list Asset) (asset : Asset) :
  List.filter platformAsset assets = [asset] →
  findAsset {| data_assets := assets |} None =
  match matchField targetTriple targetDuple asset with
  | Some field =>
      Return {| binaryName := stripTargetTriple field; url := asset_url asset;
                name := nameOrEmpty asset |}
  | None => ThrowTypeError
  end.
Proof.
  intros Hone. unfold findMatchingReleaseAssetMetadata. simpl. by rewrite Hone.
Qed.

(** The label is used when it ends with the triple or the duple as it is. *)
Lemma unnamed_single_label (assets : list Asset) (asset : Asset) (label : string) :
  List.filter platformAsset assets = [asset] →
  asset_label asset = Some label →
  endsWith label targetTriple || endsWith label targetDuple = true →
  findAsset {| data_assets := assets |} None =
  Return {| binaryName := stripTargetTriple label; url := asset_url asset;
            name := nameOrEmpty asset |}.
Proof.
  intros Hone Hlabel Hends. rewrite (unnamed_single _ _ Hone).
  unfold matchField. rewrite Hlabel. simpl. by rewrite Hends.
Qed.

(** The name is used when the asset has no label. *)
Lemma unnamed_single_name (assets : list Asset) (asset : Asset) (n : string) :
  List.filter platformAsset assets = [asset] →
  asset_label asset = None → asset_name asset = Some n →
  findAsset {| data_assets := assets |} None =
  Return {| binaryName := stripTargetTriple n; url := asset_url asset;
            name := nameOrEmpty asset |}.
Proof.
  intros Hone Hlabel Hname. rewrite (unnamed_single _ _ Hone).
  unfold matchField. by rewrite Hlabel, Hname.
Qed.

End SingleMatch.

(** C2 at an asset whose label alone ends with the platform identifier,
    through the underscore duple or before a file extension: the single
    match comes from the label, the binary name is stripped from the name. *)
Theorem unnamed_mode_strips_name_when_label_matched :
  let viaUnderscore :=
    uploaded "mytool_darwin_arm64" "mytool.bin" "https://example.com/mytool" in
  let viaExtension :=
    uploaded "mytool-darwin-arm64.zip" "download" "https://example.com/mytool" in
  (whenString (asset_label viaUnderscore)
     (endsWithPlatform "aarch64-apple-darwin" "darwin-arm64" (Some "darwin_arm64")) = true ∧
   whenString (asset_name viaUnderscore)
     (endsWithPlatform "aarch64-apple-darwin" "darwin-arm64" (Some "darwin_arm64")) = false ∧
   stripTargetTriple "mytool_darwin_arm64" = Some "mytool" ∧
   findMatchingReleaseAssetMetadata testSlug "v1.0.0" "aarch64-apple-darwin"
     "darwin-arm64" (Some "darwin_arm64") {| data_assets := [viaUnderscore] |} None =
   Return {| binaryName := Some "mytool.bin"; url := "https://example.com/mytool";
             name := "mytool.bin" |}) ∧
  (whenString (asset_label viaExtension)
     (endsWithPlatform "aarch64-apple-darwin" "darwin-arm64" None) = true ∧
   whenString (asset_name viaExtension)
     (endsWithPlatform "aarch64-apple-darwin" "darwin-arm64" None) = false ∧
   stripTargetTriple "mytool-darwin-arm64.zip" = Some "mytool-darwin-arm64.zip" ∧
   findMatchingReleaseAssetMetadata testSlug "v1.0.0" "aarch64-apple-darwin"
     "darwin-arm64" None {| data_assets := [viaExtension] |} None =
   Return {| binaryName := Some "download"; url := "https://example.com/mytool";
             name := "download" |}).
Proof. repeat split; reflexivity. Qed.

(** C10 at an asset that has a label and no name, the label ending with the
    underscore duple, or with the duple before a file extension: the single
    match is found, then [asset.name!] is [undefined] and
    [stripTargetTriple] throws a [TypeError]. *)
Theorem unnamed_mode_label_only_asset_throws_TypeError :
  findMatchingReleaseAssetMetadata testSlug "v1.0.0" "aarch64-apple-darwin"
    "darwin-arm64" (Some "darwin_arm64")
    {| data_assets := [labelled "mytool_darwin_arm64" "https://example.com/mytool"] |}
    None = ThrowTypeError ∧
  findMatchingReleaseAssetMetadata testSlug "v1.0.0" "aarch64-apple-darwin"
    "darwin-arm64" None
    {| data_assets := [labelled "mytool-darwin-arm64.zip" "https://example.com/mytool"] |}
    None = ThrowTypeError.
Proof. split; reflexivity. Qed.

(** ** src/fetch.ts: the version resolver *)

Section ResolverFacts.

Variable isExact : string → bool.

Lemma reducer_given (r : string) (st : ReducerState) (t : Tag) :
  isExact r = false → tag_name t = r →
  reducer isExact r st t =
  ({| versionsBySha := versionsBySha st; givenTagSha := Some (sha (tag_commit t)) |},
   containsExactTag isExact (versionsBySha st !! sha (tag_commit t))).
Proof.
  intros Hr Hname. unfold reducer. rewrite Hname, strictEq_refl.
  destruct (containsExactTag _ _); [done|]. by rewrite Hr.
Qed.

Lemma reducer_ignored (r : string) (st : ReducerState) (t : Tag) :
  tag_name t ≠ r → isExact (tag_name t) = false →
  reducer isExact r st t = (st, None).
Proof.
  intros Hname%strictEq_false Hexact. unfold reducer. by rewrite Hname, Hexact.
Qed.

Lemma reducer_exact (r : string) (st : ReducerState) (t : Tag) :
  tag_name t ≠ r → isExact (tag_name t) = true →
  reducer isExact r st t =
  if isEqual (givenTagSha st) (sha (tag_commit t)) then (st, Some (tag_name t))
  else (recordVersion st (sha (tag_commit t)) (tag_name t), None).
Proof.
  intros Hname%strictEq_false Hexact. unfold reducer. by rewrite Hname, Hexact.
Qed.

Lemma recordVersion_other (st : ReducerState) (sha0 version S : string) :
  sha0 ≠ S →
  versionsBySha (recordVersion st sha0 version) !! S = versionsBySha st !! S.
Proof.
  intros Hne. unfold recordVersion. simpl.
  destruct (versionsBySha st !! sha0); by rewrite lookup_insert_ne.
Qed.

Lemma recordVersion_same (st : ReducerState) (S version : string) :
  versionsBySha (recordVersion st S version) !! S =
  Some (default [] (versionsBySha st !! S) ++ [version]).
Proof.
  unfold recordVersion. simpl.
  destruct (versionsBySha st !! S); by rewrite lookup_insert_eq.
Qed.

Variables (r e S : string).
Hypothesis given_not_exact : isExact r = false.
Hypothesis exact : isExact e = true.

(** The scan resolves to [e] from every state the scan can be in, provided
    the rest of the stream still holds what has not gone by. *)
Lemma scanTags_resolves (stream : list Tag) :
  ∀ (st : ReducerState) (seenGiven seenExact : bool),
  resolverState e S seenGiven seenExact st →
  (∀ t, In t stream → tag_name t = r → sha (tag_commit t) = S) →
  (∀ t, In t stream → isExact (tag_name t) = true → sha (tag_commit t) = S →
        tag_name t = e) →
  seenGiven = true ∨ In (tagged r S) stream →
  seenExact = true ∨ In (tagged e S) stream →
  (scanTags isExact r st stream).2 = Some e.
Proof.
  induction stream as [|t rest IH];
    intros st seenGiven seenExact (Hsha & Hmap & Hboth) Hone Honly Hgiven Hexact.
  { destruct Hgiven as [->|[]], Hexact as [->|[]]. done. }
  assert (∀ t', In t' rest → tag_name t' = r → sha (tag_commit t') = S) as Hone'
    by (intros; apply Hone; simpl; auto).
  assert (∀ t', In t' rest → isExact (tag_name t') = true →
                sha (tag_commit t') = S → tag_name t' = e) as Honly'
    by (intros; apply Honly; simpl; auto).
  simpl. destruct (decide (tag_name t = r)) as [Hname|Hname].
  - (* the given tag *)
    rewrite reducer_given by done. rewrite (Hone t) by (simpl; auto).
    destruct seenExact.
    + destruct Hmap as [others ->]. simpl. by rewrite exact.
    + rewrite Hmap. simpl.
      apply (IH _ true false); [|done..|by left|].
      * by split_and!.
      * destruct Hexact as [|[->|]]; [done| |by right].
        simpl in Hname. congruence.
  - destruct (isExact (tag_name t)) eqn:Ht.
    + (* an exact tag *)
      rewrite reducer_exact by done.
      destruct (decide (sha (tag_commit t) = S)) as [HS|HS].
      * rewrite HS, (Honly t) by (simpl; auto).
        destruct seenGiven.
        -- rewrite Hsha. simpl. by rewrite strictEq_refl.
        -- rewrite Hsha. simpl.
           apply (IH _ false true); [|done|done| |by left].
           ++ split_and!; [done| |done].
              rewrite recordVersion_same. destruct seenExact.
              ** destruct Hmap as [others ->]. by eexists.
              ** rewrite Hmap. by eexists.
           ++ destruct Hgiven as [|[->|]]; [done|by destruct Hname|by right].
      * assert (isEqual (givenTagSha st) (sha (tag_commit t)) = false) as ->.
        { rewrite Hsha. destruct seenGiven; [|done]. simpl.
          apply strictEq_false. congruence. }
        apply (IH _ seenGiven seenExact); [|done..| |].
        -- split_and!; [done| |done].
           destruct seenExact; by rewrite recordVersion_other.
        -- destruct Hgiven as [|[->|]]; [by left|by destruct Hname|by right].
        -- destruct Hexact as [|[->|]]; [by left|by destruct HS|by right].
    + (* a tag of no use *)
      rewrite reducer_ignored by done.
      apply (IH _ seenGiven seenExact); [by split_and!|done..| |].
      * destruct Hgiven as [|[->|]]; [by left|by destruct Hname|by right].
      * destruct Hexact as [|[->|]]; [by left| |by right].
        simpl in Ht. congruence.
Qed.

End ResolverFacts.

Section Pages.

Variable isExact : string → bool.

(** Scanning page after page is scanning the pages laid end to end. *)
Lemma scanTags_app (r : string) (st : ReducerState) (l1 l2 : list Tag) :
  scanTags isExact r st (l1 ++ l2) =
  match scanTags isExact r st l1 with
  | (st', Some x) => (st', Some x)
  | (st', None) => scanTags isExact r st' l2
  end.
Proof.
  revert st. induction l1 as [|t l1 IH]; intros st; simpl.
  - by destruct (scanTags isExact r st l2) as [? [?|]].
  - destruct (reducer isExact r st t) as [st' [x|]]; [done|]. apply IH.
Qed.

Lemma scanPages_concat (r : string) (st : ReducerState) (pages : list (list Tag)) :
  (scanPages isExact r st pages).1 = (scanTags isExact r st (concat pages)).2.
Proof.
  revert st. induction pages as [|page pages IH]; intros st; simpl; [done|].
  rewrite scanTags_app.
  destruct (scanTags isExact r st page) as [st' [x|]]; [done|]. apply IH.
Qed.

End Pages.

(** C1, as the code has it: for a reference [r] that is not exact and an
    exact tag [e], on every stream that holds [r] and [e] at the commit [S],
    in which [r] names no other commit and no other exact tag names [S], the
    fold of the reducer over the stream resolves to [e], whichever of the two
    comes first; and so does the resolver on any paging of that stream. *)
Theorem resolver_finds_the_exact_tag
  (isExact : string → bool) (r e S : string) (stream : list Tag) :
  isExact r = false → isExact e = true →
  In (tagged r S) stream → In (tagged e S) stream →
  (∀ t, In t stream → tag_name t = r → sha (tag_commit t) = S) →
  (∀ t, In t stream → isExact (tag_name t) = true → sha (tag_commit t) = S →
        tag_name t = e) →
  (scanTags isExact r initialState stream).2 = Some e ∧
  ∀ pages slug, concat pages = stream →
    (findExactSemanticVersionTag isExact pages slug r).1 = Return e.
Proof.
  intros Hr He Hgiven Hexact Hone Honly.
  assert ((scanTags isExact r initialState stream).2 = Some e) as Hscan.
  { apply (scanTags_resolves isExact r e S Hr He stream initialState false false);
      [|done|done|by right|by right].
    split_and!; [done| |done]. apply lookup_empty. }
  split; [done|]. intros pages slug Hpages.
  unfold findExactSemanticVersionTag. rewrite Hr.
  pose proof (scanPages_concat isExact r initialState pages) as Hp.
  rewrite Hpages, Hscan in Hp.
  destruct (scanPages isExact r initialState pages) as [[x|] rest];
    simpl in Hp; by simplify_eq.
Qed.

Lemma resolver_finds_the_exact_tag_witness :
  (scanTags isExactSemanticVersion "v1" initialState
     [tagged "v2.0.0" commitB; tagged "v1.2.3" commitA; tagged "v1" commitA]).2
  = Some "v1.2.3" ∧
  ∀ pages slug,
    concat pages = [tagged "v2.0.0" commitB; tagged "v1.2.3" commitA; tagged "v1" commitA] →
    (findExactSemanticVersionTag isExactSemanticVersion pages slug "v1").1
    = Return "v1.2.3".
Proof.
  apply (resolver_finds_the_exact_tag isExactSemanticVersion "v1" "v1.2.3" commitA).
  - reflexivity.
  - reflexivity.
  - simpl. auto.
  - simpl. auto.
  - intros t [<-|[<-|[<-|[]]]]; simpl; intros; done.
  - intros t [<-|[<-|[<-|[]]]]; simpl; intros; done.
Defined.

(** C1, as the spec has it, fails: when another exact tag of the same commit
    comes before the given tag, the fold resolves to that one. *)
Lemma resolver_returns_the_first_exact_tag :
  let stream :=
    [tagged "v1.2.3" commitA; tagged "v1" commitA; tagged "v1.2.4" commitA] in
  isExactSemanticVersion "v1" = false ∧
  isExactSemanticVersion "v1.2.4" = true ∧
  In (tagged "v1" commitA) stream ∧
  In (tagged "v1.2.4" commitA) stream ∧
  (scanTags isExactSemanticVersion "v1" initialState stream).2 = Some "v1.2.3" ∧
  (scanTags isExactSemanticVersion "v1" initialState stream).2 ≠ Some "v1.2.4".
Proof.
  assert ((scanTags isExactSemanticVersion "v1" initialState
             [tagged "v1.2.3" commitA; tagged "v1" commitA; tagged "v1.2.4" commitA]).2
          = Some "v1.2.3") as Hscan by (vm_compute; reflexivity).
  cbv zeta. rewrite Hscan.
  split_and!; [reflexivity|reflexivity|simpl; auto|simpl; auto|done|done].
Qed.

(** C8: a reference that is an exact version is returned as it is, and no
    page is taken from the tag listing. *)
Theorem findExactSemanticVersionTag_exact_reference
  (isExact : string → bool) (octokit : list (list Tag)) (slug : RepositorySlug)
  (target : string) :
  isExact target = true →
  findExactSemanticVersionTag isExact octokit slug target = (Return target, octokit).
Proof. intros Hexact. unfold findExactSemanticVersionTag. by rewrite Hexact. Qed.

Lemma findExactSemanticVersionTag_exact_reference_witness :
  findExactSemanticVersionTag isExactSemanticVersion
    [[tagged "v1" commitA; tagged "v1.2.3" commitA]] testSlug "v1.2.3-rc.1+build.456"
  = (Return "v1.2.3-rc.1+build.456", [[tagged "v1" commitA; tagged "v1.2.3" commitA]]).
Proof.
  apply (findExactSemanticVersionTag_exact_reference isExactSemanticVersion).
  reflexivity.
Defined.

(** ** The target parser: splitting the input *)

Section Splitting.

Lemma allChars_append (p : ascii → bool) (s t : string) :
  allChars p (s +:+ t) = allChars p s && allChars p t.
Proof.
  induction s as [|a s IH]; [done|].
  rewrite append_cons. simpl. by rewrite IH, andb_assoc.
Qed.

Lemma allChars_impl (p q : ascii → bool) (s : string) :
  (∀ c, p c = true → q c = true) → allChars p s = true → allChars q s = true.
Proof.
  intros Hpq. induction s as [|a s IH]; [done|]. simpl.
  intros [Ha Hs]%andb_true_iff. by rewrite (Hpq a Ha), IH.
Qed.

Lemma isEmpty_false (s : string) : isEmpty s = false ↔ s ≠ "".
Proof. apply String.eqb_neq. Qed.

Lemma isEmpty_append (s : string) (a : ascii) (t : string) :
  isEmpty (s +:+ String a t) = false.
Proof. apply isEmpty_false. by destruct s. Qed.

Lemma flush_token (s : string) : s ≠ "" → flush s = [s].
Proof. intros Hs%isEmpty_false. unfold flush. by rewrite Hs. Qed.

Lemma tokensFrom_space (current : string) (c : ascii) (s : string) :
  Ascii.is_space c = true →
  tokensFrom current (String c s) = flush current ++ tokensFrom "" s.
Proof. intros Hc. simpl. by rewrite Hc. Qed.

(** Reading a run of characters other than whitespace extends the current
    token. *)
Lemma tokensFrom_token (t : string) :
  ∀ current s, noWhitespace t = true →
  tokensFrom current (t +:+ s) = tokensFrom (current +:+ t) s.
Proof.
  induction t as [|a t IH]; intros current s Ht.
  - by rewrite append_nil_l, append_nil_r.
  - simpl in Ht. apply andb_true_iff in Ht as [Ha Ht].
    apply negb_true_iff in Ha. rewrite append_cons. simpl. rewrite Ha.
    rewrite IH by done. by rewrite append_assoc.
Qed.

(** Reading whitespace with no current token changes nothing. *)
Lemma tokensFrom_whitespace (w s : string) :
  allWhitespace w = true → tokensFrom "" (w +:+ s) = tokensFrom "" s.
Proof.
  induction w as [|a w IH]; [done|]. intros [Ha Hw]%andb_true_iff.
  rewrite append_cons, tokensFrom_space by done. by apply IH.
Qed.

Lemma tokensFrom_trailing (current w : string) :
  allWhitespace w = true → tokensFrom current w = flush current.
Proof.
  intros Hw. destruct w as [|a w]; [done|].
  apply andb_true_iff in Hw as [Ha Hw]. rewrite tokensFrom_space by done.
  rewrite <- (append_nil_r w), tokensFrom_whitespace by done.
  apply app_nil_r.
Qed.

Lemma tokensFrom_trimStart (s : string) :
  tokensFrom "" (trimStart s) = tokensFrom "" s.
Proof.
  induction s as [|a s IH]; [done|]. simpl.
  destruct (Ascii.is_space a) eqn:Ha; [done|]. simpl. by rewrite Ha.
Qed.

Lemma tokensFrom_trimEnd (s : string) :
  ∀ current, tokensFrom current (trimEnd s) = tokensFrom current s.
Proof.
  induction s as [|a s IH]; intros current; [done|]. simpl.
  destruct (Ascii.is_space a) eqn:Ha; simpl.
  - destruct (isEmpty (trimEnd s)) eqn:Hs.
    + apply String.eqb_eq in Hs. rewrite <- IH, Hs. simpl. by rewrite app_nil_r.
    + simpl. by rewrite Ha, IH.
  - by rewrite Ha, IH.
Qed.

(** Trimming does not change the tokens. *)
Lemma splitWhitespace_trim (s : string) :
  splitWhitespace (trim s) = splitWhitespace s.
Proof.
  unfold splitWhitespace, trim. by rewrite tokensFrom_trimEnd, tokensFrom_trimStart.
Qed.

Lemma isToken_true (t : string) :
  isToken t = true ↔ t ≠ "" ∧ noWhitespace t = true.
Proof. unfold isToken. by rewrite andb_true_iff, negb_true_iff, isEmpty_false. Qed.

Lemma isSeparator_true (w : string) :
  isSeparator w = true ↔ w ≠ "" ∧ allWhitespace w = true.
Proof. unfold isSeparator. by rewrite andb_true_iff, negb_true_iff, isEmpty_false. Qed.

Lemma tokensFrom_separated (rest : list (string * string)) (trail : string) :
  ∀ current, current ≠ "" →
  allWhitespace trail = true →
  Forall (fun item => isSeparator item.1 = true ∧ isToken item.2 = true) rest →
  tokensFrom current (separated rest +:+ trail) = current :: map snd rest.
Proof.
  intros current Hcurrent Htrail Hrest. revert current Hcurrent.
  induction Hrest as [|[separator token] rest [Hsep Htok] _ IH];
    intros current Hcurrent; simpl.
  - by rewrite append_nil_l, tokensFrom_trailing, flush_token.
  - simpl in Hsep, Htok.
    apply isSeparator_true in Hsep as [Hne Hws].
    apply isToken_true in Htok as [Htne Htok].
    rewrite !append_assoc. destruct separator as [|c w]; [done|].
    apply andb_true_iff in Hws as [Hc Hw].
    rewrite append_cons, tokensFrom_space, flush_token by done.
    rewrite tokensFrom_whitespace, tokensFrom_token by done.
    rewrite append_nil_l. by rewrite IH.
Qed.

(** The tokens of a laid out input are the tokens it was made of. *)
Lemma splitWhitespace_layout (lead first : string) (rest : list (string * string))
  (trail : string) :
  allWhitespace lead = true → allWhitespace trail = true →
  isToken first = true →
  Forall (fun item => isSeparator item.1 = true ∧ isToken item.2 = true) rest →
  splitWhitespace (trim (layout lead first rest trail)) = first :: map snd rest.
Proof.
  intros Hlead Htrail [Hne Hfirst]%isToken_true Hrest.
  rewrite splitWhitespace_trim. unfold splitWhitespace, layout.
  rewrite tokensFrom_whitespace, tokensFrom_token by done.
  rewrite append_nil_l. by apply tokensFrom_separated.
Qed.

End Splitting.

(** ** The target parser: a target holds no whitespace *)

Section WellFormed.

Local Abbreviation notSpace := (fun c => negb (Ascii.is_space c)).

Ltac each_character c := destruct c as [[] [] [] [] [] [] [] []]; done.

Lemma isDigit_notSpace (c : ascii) : isDigit c = true → notSpace c = true.
Proof. each_character c. Qed.

Lemma isAlphanumericOrHyphen_notSpace (c : ascii) :
  isAlphanumericOrHyphen c = true → notSpace c = true.
Proof. each_character c. Qed.

Lemma isLowercaseHex_notSpace (c : ascii) :
  isLowercaseHex c = true → notSpace c = true.
Proof. each_character c. Qed.

Lemma splitFirst_Some (c : ascii) (s before after : string) :
  splitFirst c s = Some (before, after) → s = before +:+ String c after.
Proof.
  revert before. induction s as [|a s IH]; intros before; simpl; [done|].
  destruct (Ascii.eqb_spec a c) as [->|_].
  - by intros [= <- <-].
  - destruct (splitFirst c s) as [[b' a']|]; [|done].
    intros [= <- <-]. by rewrite append_cons, <- IH.
Qed.

Lemma splitOptional_noWhitespace (c : ascii) (s before : string) (after : option string) :
  splitOptional c s = (before, after) → notSpace c = true →
  noWhitespace before = true → from_option noWhitespace true after = true →
  noWhitespace s = true.
Proof.
  unfold splitOptional. intros Hsplit Hc Hbefore Hafter.
  destruct (splitFirst c s) as [[b a]|] eqn:Hfirst.
  - apply splitFirst_Some in Hfirst as ->. injection Hsplit as <- <-.
    simpl in Hafter. unfold noWhitespace in *. rewrite allChars_append. simpl.
    by rewrite Hbefore, Hc, Hafter.
  - by injection Hsplit as <- <-.
Qed.

Lemma splitOn_allChars (q : ascii → bool) (c : ascii) (s : string) :
  q c = true → forallb (allChars q) (splitOn c s) = true → allChars q s = true.
Proof.
  intros Hc. induction s as [|a s IH]; [done|]. simpl.
  destruct (Ascii.eqb_spec a c) as [->|_].
  - simpl. intros Hs. by rewrite Hc, IH.
  - destruct (splitOn c s) as [|piece pieces]; simpl.
    + intros Ha. rewrite andb_true_r in Ha.
      apply andb_true_iff in Ha as [-> _]. by rewrite IH.
    + intros [[Ha Hp]%andb_true_iff Hps]%andb_true_iff.
      rewrite Ha. apply IH. simpl. by rewrite Hp, Hps.
Qed.

Lemma forallb_impl {A} (p q : A → bool) (l : list A) :
  (∀ x, p x = true → q x = true) → forallb p l = true → forallb q l = true.
Proof.
  intros Hpq. rewrite !forallb_forall. auto.
Qed.

Lemma isIdentifiers_noWhitespace (s : string) :
  isIdentifiers s = true → noWhitespace s = true.
Proof.
  unfold isIdentifiers. intros Hgroups.
  apply (splitOn_allChars _ "."); [done|].
  revert Hgroups. apply forallb_impl. intros group [_ Hg]%andb_true_iff.
  revert Hg. apply allChars_impl, isAlphanumericOrHyphen_notSpace.
Qed.

Lemma versionComponents_noWhitespace (s : string) (n : nat) :
  versionComponents s = Some n → noWhitespace s = true.
Proof.
  destruct s as [|a rest]; [done|]. unfold versionComponents.
  destruct (Ascii.eqb_spec a "v") as [->|Ha].
  - destruct (splitOptional "+" rest) as [beforeBuild build] eqn:Hbuild.
    destruct (splitOptional "-" beforeBuild) as [core prerelease] eqn:Hpre.
    destruct (forallb isNumeric (splitOn "." core) &&
              optionalIdentifiers prerelease && optionalIdentifiers build) eqn:Hok;
      [|done].
    intros _. apply andb_true_iff in Hok as [[Hcore Hp]%andb_true_iff Hb].
    simpl. apply (splitOptional_noWhitespace _ _ _ _ Hbuild); [done| |].
    + apply (splitOptional_noWhitespace _ _ _ _ Hpre); [done| |].
      * apply (splitOn_allChars _ "."); [done|].
        revert Hcore. apply forallb_impl. intros g [_ Hg]%andb_true_iff.
        revert Hg. apply allChars_impl, isDigit_notSpace.
      * destruct prerelease; [|done]. by apply isIdentifiers_noWhitespace.
    + destruct build; [|done]. by apply isIdentifiers_noWhitespace.
  - intros Hv. exfalso. revert Hv.
    destruct a as [[] [] [] [] [] [] [] []]; done.
Qed.

Lemma isSemanticVersion_noWhitespace (s : string) :
  isSemanticVersion s = true → noWhitespace s = true.
Proof.
  unfold isSemanticVersion.
  destruct (versionComponents s) as [n|] eqn:Hn; [|done].
  intros _. by eapply versionComponents_noWhitespace.
Qed.

Lemma dropPrefix_Some (literal s rest : string) :
  dropPrefix literal s = Some rest → s = literal +:+ rest.
Proof.
  revert s. induction literal as [|a literal IH]; intros s; simpl.
  - by intros [= ->].
  - destruct s as [|b s]; [done|].
    destruct (Ascii.eqb_spec a b) as [->|_]; [|done].
    intros Hrest%IH. by rewrite append_cons, <- Hrest.
Qed.

Lemma parseChecksum_noWhitespace (s digest : string) :
  parseChecksum s = Some digest → noWhitespace s = true.
Proof.
  unfold parseChecksum.
  destruct (dropPrefix "sha256-" s) as [d|] eqn:Hd; [|done].
  apply dropPrefix_Some in Hd as ->.
  destruct ((String.length d =? 64) && allChars isLowercaseHex d) eqn:Hok; [|done].
  intros _. apply andb_true_iff in Hok as [_ Hhex].
  unfold noWhitespace. rewrite allChars_append. simpl.
  revert Hhex. apply allChars_impl, isLowercaseHex_notSpace.
Qed.

Lemma isNamePart_noWhitespace (s : string) :
  isNamePart s = true → noWhitespace s = true.
Proof.
  intros [_ Hs]%andb_true_iff. revert Hs. apply allChars_impl.
  intros c Hc. apply negb_true_iff in Hc.
  by apply orb_false_iff in Hc as [_ ->].
Qed.

(** A text that parses as a target is a token. *)
Lemma parseTargetRelease_isToken (token : string) (record : TargetRelease) :
  parseTargetRelease token = Some record → isToken token = true.
Proof.
  unfold parseTargetRelease.
  destruct (splitFirst "@" token) as [[path reference]|] eqn:Hat; [|done].
  apply splitFirst_Some in Hat as ->.
  destruct (splitOptional ":" reference) as [tag checksumPart] eqn:Hcolon.
  intros Hparse.
  assert (noWhitespace path = true ∧ noWhitespace reference = true) as [Hp Href].
  { destruct (splitOn "/" path) as [|o [|r [|b [|]]]] eqn:Hpath; try done.
    - destruct checksumPart as [part|].
      + destruct (parseChecksum part) as [digest|] eqn:Hsum; [|done]. simpl in Hparse.
        destruct (isNamePart o && isNamePart r && true && isSemanticVersion tag)
          eqn:Hok; [|done].
        apply andb_true_iff in Hok as [[[Ho Hr]%andb_true_iff _]%andb_true_iff Htag].
        split.
        * apply (splitOn_allChars _ "/"); [done|]. rewrite Hpath. simpl.
          repeat (apply andb_true_iff; split); try done;
            by apply isNamePart_noWhitespace.
        * apply (splitOptional_noWhitespace _ _ _ _ Hcolon); [done| |].
          -- by apply isSemanticVersion_noWhitespace.
          -- simpl. by eapply parseChecksum_noWhitespace.
      + simpl in Hparse.
        destruct (isNamePart o && isNamePart r && true && isSemanticVersion tag)
          eqn:Hok; [|done].
        apply andb_true_iff in Hok as [[[Ho Hr]%andb_true_iff _]%andb_true_iff Htag].
        split.
        * apply (splitOn_allChars _ "/"); [done|]. rewrite Hpath. simpl.
          repeat (apply andb_true_iff; split); try done;
            by apply isNamePart_noWhitespace.
        * apply (splitOptional_noWhitespace _ _ _ _ Hcolon); [done| |done].
          by apply isSemanticVersion_noWhitespace.
    - destruct checksumPart as [part|].
      + destruct (parseChecksum part) as [digest|] eqn:Hsum; [|done]. simpl in Hparse.
        destruct (isNamePart o && isNamePart r && isNamePart b && isSemanticVersion tag)
          eqn:Hok; [|done].
        apply andb_true_iff in Hok as [[[Ho Hr]%andb_true_iff Hb]%andb_true_iff Htag].
        split.
        * apply (splitOn_allChars _ "/"); [done|]. rewrite Hpath. simpl.
          repeat (apply andb_true_iff; split); try done;
            by apply isNamePart_noWhitespace.
        * apply (splitOptional_noWhitespace _ _ _ _ Hcolon); [done| |].
          -- by apply isSemanticVersion_noWhitespace.
          -- simpl. by eapply parseChecksum_noWhitespace.
      + simpl in Hparse.
        destruct (isNamePart o && isNamePart r && isNamePart b && isSemanticVersion tag)
          eqn:Hok; [|done].
        apply andb_true_iff in Hok as [[[Ho Hr]%andb_true_iff Hb]%andb_true_iff Htag].
        split.
        * apply (splitOn_allChars _ "/"); [done|]. rewrite Hpath. simpl.
          repeat (apply andb_true_iff; split); try done;
            by apply isNamePart_noWhitespace.
        * apply (splitOptional_noWhitespace _ _ _ _ Hcolon); [done| |done].
          by apply isSemanticVersion_noWhitespace. }
  unfold isToken. rewrite isEmpty_append. simpl.
  unfold noWhitespace in *. rewrite allChars_append. simpl.
  by rewrite Hp, Href.
Qed.

End WellFormed.

(** ** The target parser: the whole input *)

Lemma diagnostics_none (tokens : list string) (records : list TargetRelease) :
  Forall2 (fun token record => parseTargetRelease token = Some record) tokens records →
  diagnostics tokens = [] ∧ omap parseTargetRelease tokens = records.
Proof.
  unfold diagnostics.
  induction 1 as [|token record tokens records Hparse _ [IHd IHr]]; [done|].
  simpl. rewrite Hparse. simpl. split; [done|]. f_equal. exact IHr.
Qed.

Lemma diagnostics_some (tokens : list string) :
  Exists (fun token => parseTargetRelease token = None) tokens →
  diagnostics tokens ≠ [].
Proof.
  unfold diagnostics. induction 1 as [token tokens Hparse|token tokens _ IH]; simpl.
  - by rewrite Hparse.
  - destruct (parseTargetRelease token); [done|]. done.
Qed.

Lemma parseTargetReleases_tokens (input : string) (tokens : list string) :
  splitWhitespace (trim input) = tokens →
  parseTargetReleases input =
  match tokens with
  | [] => error ["No targets given"]
  | _ => match diagnostics tokens with
         | [] => ok (omap parseTargetRelease tokens)
         | messages => error messages
         end
  end.
Proof. intros <-. reflexivity. Qed.

Lemma parseTargetReleases_fails (input : string) :
  splitWhitespace (trim input) = [] ∨
  Exists (fun token => parseTargetRelease token = None)
         (splitWhitespace (trim input)) →
  ∃ messages, parseTargetReleases input = error messages ∧ messages ≠ [].
Proof.
  intros Hbad. rewrite (parseTargetReleases_tokens input _ eq_refl).
  destruct (splitWhitespace (trim input)) as [|token tokens] eqn:Htokens.
  - by eexists.
  - destruct Hbad as [|Hbad%diagnostics_some]; [done|].
    destruct (diagnostics (token :: tokens)) as [|m ms]; [done|]. by eexists.
Qed.

(** C9: an input made of well-formed targets, with whitespace of any kind
    before, between and after them, parses to one record per target, in the
    order of the input; an input without a token, or with a token that is
    not a target, fails as a whole with at least one diagnostic. *)
Theorem parseTargetReleases_whole_input :
  (∀ lead first rest trail records,
     allWhitespace lead = true → allWhitespace trail = true →
     Forall (fun item => isSeparator item.1 = true) rest →
     Forall2 (fun token record => parseTargetRelease token = Some record)
             (first :: map snd rest) records →
     parseTargetReleases (layout lead first rest trail) = ok records ∧
     length records = S (length rest)) ∧
  (∀ input,
     splitWhitespace (trim input) = [] ∨
     Exists (fun token => parseTargetRelease token = None)
            (splitWhitespace (trim input)) →
     ∃ messages, parseTargetReleases input = error messages ∧ messages ≠ []) ∧
  (∀ input,
     allWhitespace input = true →
     ∃ messages, parseTargetReleases input = error messages ∧ messages ≠ []) ∧
  (∀ lead first rest trail,
     allWhitespace lead = true → allWhitespace trail = true →
     isToken first = true →
     Forall (fun item => isSeparator item.1 = true ∧ isToken item.2 = true) rest →
     Exists (fun token => parseTargetRelease token = None) (first :: map snd rest) →
     ∃ messages,
       parseTargetReleases (layout lead first rest trail) = error messages ∧
       messages ≠ []).
Proof.
  split_and!.
  - intros lead first rest trail records Hlead Htrail Hseps Hparsed.
    assert (splitWhitespace (trim (layout lead first rest trail))
            = first :: map snd rest) as Htokens.
    { apply splitWhitespace_layout; [done|done| |].
      - apply Forall2_cons_inv_l in Hparsed as (r & rs & Hfirst & _ & _).
        by eapply parseTargetRelease_isToken.
      - apply Forall2_cons_inv_l in Hparsed as (r & rs & _ & Hrest & _).
        clear Htrail. revert rs Hrest.
        induction Hseps as [|[separator token] rest Hsep _ IH]; intros rs Hrest;
          [done|].
        simpl in Hrest.
        apply Forall2_cons_inv_l in Hrest as (r' & rs' & Htoken & Hrest & _).
        constructor; [|by eapply IH].
        split; [done|]. by eapply parseTargetRelease_isToken. }
    rewrite (parseTargetReleases_tokens _ _ Htokens).
    destruct (diagnostics_none _ _ Hparsed) as [-> ->].
    split; [done|].
    apply Forall2_length in Hparsed. simpl in Hparsed.
    by rewrite length_map in Hparsed.
  - apply parseTargetReleases_fails.
  - intros input Hws. apply parseTargetReleases_fails. left.
    rewrite splitWhitespace_trim. by apply tokensFrom_trailing.
  - intros lead first rest trail Hlead Htrail Hfirst Hrest Hbad.
    apply parseTargetReleases_fails. right.
    by rewrite splitWhitespace_layout.
Qed.

Lemma parseTargetReleases_whole_input_witness :
  let newline := String "010" "" in
  (parseTargetReleases
     (layout ("    " +:+ newline +:+ "   ") "foo/bar@v1"
             [("    " +:+ newline +:+ "  ", "qux/baz@v2.3.4")]
             (newline +:+ "  ")) =
   ok [ {| target_slug := {| owner := "foo"; repository := "bar" |};
           target_binaryName := None; target_tag := "v1";
           target_checksum := None |};
        {| target_slug := {| owner := "qux"; repository := "baz" |};
           target_binaryName := None; target_tag := "v2.3.4";
           target_checksum := None |} ]) ∧
  (∃ messages,
     parseTargetReleases "foo/bar@v1 foo/bar@1" = error messages ∧ messages ≠ []).
Proof.
  split.
  - apply (proj1 parseTargetReleases_whole_input).
    + reflexivity.
    + reflexivity.
    + repeat constructor.
    + repeat constructor.
  - apply (proj1 (proj2 parseTargetReleases_whole_input)).
    right. apply Exists_cons_tl, Exists_cons_hd. reflexivity.
Defined.

(** ** Further facts and the examples of the test suite *)

(** What the filter of the unnamed mode accepts, in words: a label or a name
    that, without its file extension, ends with one of the identifiers. *)
Lemma unnamedMatch_true (targetTriple targetDuple : string)
  (targetDupleUnderscore : option string) (asset : Asset) :
  targetDupleUnderscore ≠ Some "" →
  unnamedMatch targetTriple targetDuple targetDupleUnderscore asset = true ↔
  ∃ field,
    (asset_label asset = Some field ∨ asset_name asset = Some field) ∧
    (endsWith (stripExtension field) targetTriple = true ∨
     endsWith (stripExtension field) targetDuple = true ∨
     ∃ u, targetDupleUnderscore = Some u ∧
          endsWith (stripExtension field) u = true).
Proof.
  intros Hsupplied.
  assert (∀ field,
    endsWithPlatform targetTriple targetDuple targetDupleUnderscore field = true ↔
    (endsWith (stripExtension field) targetTriple = true ∨
     endsWith (stripExtension field) targetDuple = true ∨
     ∃ u, targetDupleUnderscore = Some u ∧
          endsWith (stripExtension field) u = true)) as Hfield.
  { intros field. unfold endsWithPlatform.
    rewrite truthyOpt_supplied, !orb_true_iff, andb_true_iff by done.
    destruct targetDupleUnderscore as [u|]; simpl.
    - split.
      + intros [[?|?]|[_ ?]]; eauto.
      + intros [?|[?|(u' & [= <-] & ?)]]; auto.
    - split.
      + intros [[?|?]|[? _]]; auto. done.
      + intros [?|[?|(u' & ? & _)]]; auto. done. }
  unfold unnamedMatch. rewrite orb_true_iff. split.
  - intros [Hl|Hn].
    + destruct (asset_label asset) as [l|]; [|done].
      exists l. split; [by left|]. by apply Hfield.
    + destruct (asset_name asset) as [n|]; [|done].
      exists n. split; [by right|]. by apply Hfield.
  - intros (field & [Hl|Hn] & Hends%Hfield).
    + left. by rewrite Hl.
    + right. by rewrite Hn.
Qed.

(** A given tag that the listing shows at two commits hides the exact tag of
    the first one: the resolver keeps the last hash only. *)
Example resolver_given_tag_at_two_commits :
  (scanTags isExactSemanticVersion "v1" initialState
     [tagged "v1" commitA; tagged "v1" commitB; tagged "v1.2.3" commitA]).2 = None.
Proof. vm_compute. reflexivity. Qed.

(** test/test-strip-target-triple.ts *)
Example strip_target_triple_tests :
  stripTargetTriple "darwin-thing-aarch64-apple-darwin" = Some "darwin-thing" ∧
  stripTargetTriple "foo-x86_64-apple-darwin" = Some "foo" ∧
  stripTargetTriple "foo-aarch64-unknown-linux-musl" = Some "foo" ∧
  stripTargetTriple "foo-x86_64-unknown-linux-musl" = Some "foo" ∧
  stripTargetTriple "x86_64-unknown-linux-musl" = None ∧
  stripTargetTriple "myapp-darwin-arm64" = Some "myapp" ∧
  stripTargetTriple "myapp-darwin-amd64" = Some "myapp" ∧
  stripTargetTriple "myapp-linux-arm64" = Some "myapp" ∧
  stripTargetTriple "myapp-linux-amd64" = Some "myapp" ∧
  stripTargetTriple "darwin-arm64" = None.
Proof. repeat split; reflexivity. Qed.

(** test/test-parse-target-release.ts *)
Example parse_target_release_tests :
  parseTargetReleases "" = error ["No targets given"] ∧
  parseTargetReleases "foo/bar" = error [diagnostic "foo/bar"] ∧
  parseTargetReleases "foo/bar@1" = error [diagnostic "foo/bar@1"] ∧
  parseTargetReleases
    "owner/repository/binary-name@v1:sha256-8a4600be96d2ec013209042458ce97a9652fcc46c1c855d0217aa42e330fc06e"
  = ok [ {| target_slug := {| owner := "owner"; repository := "repository" |};
            target_binaryName := Some "binary-name";
            target_tag := "v1";
            target_checksum :=
              Some "8a4600be96d2ec013209042458ce97a9652fcc46c1c855d0217aa42e330fc06e" |} ] ∧
  parseTargetReleases "foo/bar@v1.2.3-rc.1+build.456"
  = ok [ {| target_slug := {| owner := "foo"; repository := "bar" |};
            target_binaryName := None;
            target_tag := "v1.2.3-rc.1+build.456";
            target_checksum := None |} ].
Proof. repeat split; reflexivity. Qed.

(** test/test-find-matching-release-asset.ts, the unnamed mode with one
    asset. *)
Example unnamed_mode_single_asset_tests :
  findMatchingReleaseAssetMetadata testSlug "v1.0.0" "aarch64-apple-darwin"
    "darwin-arm64" None
    {| data_assets := [labelled "somebin-darwin-arm64" "https://example.com/somebin-duple"] |}
    None =
  Return {| binaryName := Some "somebin"; url := "https://example.com/somebin-duple";
            name := "" |} ∧
  findMatchingReleaseAssetMetadata testSlug "v1.0.0" "aarch64-apple-darwin"
    "darwin-arm64" None
    {| data_assets :=
         [ {| asset_label := None; asset_name := Some "somebin-aarch64-apple-darwin";
              asset_url := "https://example.com/somebin-triple" |} ] |}
    None =
  Return {| binaryName := Some "somebin"; url := "https://example.com/somebin-triple";
            name := "somebin-aarch64-apple-darwin" |}.
Proof. split; reflexivity. Qed.

(** * Further properties of the code *)

(** ** src/platform.ts: the platform identifiers *)

Lemma getTargetTriple_Return (arch platform t : string) :
  getTargetTriple arch platform = Return t →
  In t ALL_TARGET_TRIPLES ∧
  (arch = "arm64" ∨ arch = "x64") ∧
  (platform = "darwin" ∨ platform = "linux").
Proof.
  unfold getTargetTriple, architectureLabel, platformLabel.
  destruct (strictEq arch "arm64") eqn:Ha1;
    [|destruct (strictEq arch "x64") eqn:Ha2; [|done]];
    (destruct (strictEq platform "darwin") eqn:Hp1;
      [|destruct (strictEq platform "linux") eqn:Hp2; [|done]]);
    intros [= <-]; rewrite ?strictEq_true in *; subst; simpl; auto 10.
Qed.

(** X1: [getTargetTriple] returns exactly on the architectures arm64 and x64
    with the platforms darwin and linux, and what it returns is one of the
    four enumerated triples. *)
Theorem getTargetTriple_returns_enumerated (arch platform : string) :
  (∀ t, getTargetTriple arch platform = Return t →
        In t ALL_TARGET_TRIPLES ∧
        (arch = "arm64" ∨ arch = "x64") ∧
        (platform = "darwin" ∨ platform = "linux")) ∧
  ((arch = "arm64" ∨ arch = "x64") →
   (platform = "darwin" ∨ platform = "linux") →
   ∃ t, getTargetTriple arch platform = Return t).
Proof.
  split.
  - intros t. apply getTargetTriple_Return.
  - intros [-> | ->] [-> | ->]; simpl; eauto.
Qed.

Lemma getTargetTriple_returns_enumerated_witness :
  (In "x86_64-unknown-linux-musl" ALL_TARGET_TRIPLES ∧
   ("x64" = "arm64" ∨ "x64" = "x64") ∧ ("linux" = "darwin" ∨ "linux" = "linux")) ∧
  ∃ t, getTargetTriple "arm64" "darwin" = Return t.
Proof.
  split.
  - apply (proj1 (getTargetTriple_returns_enumerated "x64" "linux")). reflexivity.
  - apply (proj2 (getTargetTriple_returns_enumerated "arm64" "darwin")); auto.
Defined.

(** X2: an unsupported architecture is reported whatever the platform is;
    an unsupported platform is reported once the architecture is accepted. *)
Theorem getTargetTriple_reports_architecture_first (arch platform : string) :
  (arch ≠ "arm64" → arch ≠ "x64" →
   getTargetTriple arch platform =
   Throw ("Unsupported architecture " +:+ arch +:+
          " -- only aarch64 and x86_64 currently supported")) ∧
  (arch = "arm64" ∨ arch = "x64" →
   platform ≠ "darwin" → platform ≠ "linux" →
   getTargetTriple arch platform =
   Throw ("Unsupported platform " +:+ platform +:+
          " -- only darwin and linux currently supported")).
Proof.
  unfold getTargetTriple, architectureLabel, platformLabel. split.
  - intros H1%strictEq_false H2%strictEq_false. by rewrite H1, H2.
  - intros Harch H1%strictEq_false H2%strictEq_false.
    destruct Harch as [-> | ->]; simpl; by rewrite H1, H2.
Qed.

Lemma getTargetTriple_reports_architecture_first_witness :
  getTargetTriple "ia32" "win32" =
    Throw "Unsupported architecture ia32 -- only aarch64 and x86_64 currently supported" ∧
  getTargetTriple "x64" "win32" =
    Throw "Unsupported platform win32 -- only darwin and linux currently supported".
Proof.
  split.
  - apply (proj1 (getTargetTriple_reports_architecture_first "ia32" "win32"));
      discriminate.
  - apply (proj2 (getTargetTriple_reports_architecture_first "x64" "win32"));
      [by right|discriminate|discriminate].
Defined.

Lemma target_duples_of_triple (arch platform t : string) :
  getTargetTriple arch platform = Return t →
  let goArch := if strictEq arch "arm64" then "arm64" else "amd64" in
  getTargetDuple arch platform = Return (platform +:+ "-" +:+ goArch) ∧
  getTargetDupleUnderscore arch platform = Return (platform +:+ "_" +:+ goArch) ∧
  In (platform +:+ "-" +:+ goArch) TARGET_DUPLES ∧
  In (platform +:+ "_" +:+ goArch) TARGET_DUPLES.
Proof.
  intros Ht.
  destruct (getTargetTriple_Return arch platform t Ht)
    as (_ & [-> | ->] & [-> | ->]); cbv zeta; simpl; split_and!; auto 10.
Qed.

(** X3: wherever [getTargetTriple] returns, the two duple functions return
    too, the same operating system and architecture spelled with a hyphen
    and with an underscore, both of them enumerated duples. *)
Theorem target_duples_follow_the_triple (arch platform t : string) :
  getTargetTriple arch platform = Return t →
  let goArch := if strictEq arch "arm64" then "arm64" else "amd64" in
  getTargetDuple arch platform = Return (platform +:+ "-" +:+ goArch) ∧
  getTargetDupleUnderscore arch platform = Return (platform +:+ "_" +:+ goArch) ∧
  In (platform +:+ "-" +:+ goArch) TARGET_DUPLES ∧
  In (platform +:+ "_" +:+ goArch) TARGET_DUPLES.
Proof. apply target_duples_of_triple. Qed.

Lemma target_duples_follow_the_triple_witness :
  getTargetDuple "x64" "darwin" = Return ("darwin" +:+ "-" +:+ "amd64") ∧
  getTargetDupleUnderscore "x64" "darwin" = Return ("darwin" +:+ "_" +:+ "amd64") ∧
  In ("darwin" +:+ "-" +:+ "amd64") TARGET_DUPLES ∧
  In ("darwin" +:+ "_" +:+ "amd64") TARGET_DUPLES.
Proof.
  apply (target_duples_follow_the_triple "x64" "darwin" "x86_64-apple-darwin").
  reflexivity.
Defined.

(** ** src/platform.ts: what stripping does to a string *)

Section StrippingShape.

Variable seps : list ascii.

Local Abbreviation strip := (fun value x => replaceSuffix seps x value).

(** A replacement returns the string or a strictly shorter beginning of it. *)
Lemma replaceSuffix_prefix (literal s : string) :
  ∃ suffix, s = replaceSuffix seps literal s +:+ suffix ∧
            (suffix = "" ∨ ∃ c, In c seps ∧ suffix = String c literal).
Proof.
  induction s as [|a s (suffix & Hs & Hshape)]; [by exists ""; auto|]. simpl.
  destruct (existsb (Ascii.eqb a) seps && String.eqb s literal) eqn:Hm.
  - apply andb_true_iff in Hm as [(c & Hc & ->%Ascii.eqb_eq)%existsb_exists
                                   ->%String.eqb_eq].
    exists (String c literal). split; [done|]. right. eauto.
  - exists suffix. rewrite append_cons, <- Hs. auto.
Qed.

Lemma reduce_prefix (table : list string) (s : string) :
  ∃ suffix, s = fold_left strip table s +:+ suffix.
Proof.
  revert s. induction table as [|y rest IH]; intros s; simpl.
  - exists "". by rewrite append_nil_r.
  - destruct (replaceSuffix_prefix y s) as (suffix1 & Hs & _).
    destruct (IH (replaceSuffix seps y s)) as (suffix2 & Hrest).
    exists (suffix2 +:+ suffix1). by rewrite <- append_assoc, <- Hrest.
Qed.

Lemma append_nil_inv (s suffix : string) : s = s +:+ suffix → suffix = "".
Proof.
  intros Heq. apply (f_equal String.length) in Heq.
  rewrite length_append in Heq. destruct suffix; [done|]. simpl in Heq. lia.
Qed.

(** A replacement that returns the string did not match. *)
Lemma replaceSuffix_fixed (literal s : string) (c : ascii) :
  replaceSuffix seps literal s = s → In c seps →
  endsWith s (String c literal) = false.
Proof.
  intros Hfixed Hc. apply not_true_is_false. intros [p ->]%endsWith_true.
  rewrite replaceSuffix_append in Hfixed by done.
  by apply append_ne_self in Hfixed.
Qed.

(** A [reduce] that returns the string met no entry that ends it. *)
Lemma reduce_fixed (table : list string) (s : string) :
  fold_left strip table s = s →
  ∀ d c, In d table → In c seps → endsWith s (String c d) = false.
Proof.
  induction table as [|y rest IH]; intros Hfixed d c Hd Hc; [done|].
  simpl in Hfixed.
  destruct (replaceSuffix_prefix y s) as (suffix1 & Hs & _).
  destruct (reduce_prefix rest (replaceSuffix seps y s)) as (suffix2 & Hrest).
  assert (suffix2 +:+ suffix1 = "") as Hnil.
  { apply (append_nil_inv s). rewrite <- append_assoc.
    rewrite Hfixed in Hrest. by rewrite <- Hrest, <- Hs. }
  assert (suffix1 = "") as -> by (destruct suffix2, suffix1; done).
  rewrite append_nil_r in Hs. rewrite <- Hs in Hfixed.
  destruct Hd as [->|Hd].
  - by apply replaceSuffix_fixed.
  - by apply IH.
Qed.

End StrippingShape.

Lemma findEqual_false (table : list string) (value : string) :
  findEqual table value = false ↔ ¬ In value table.
Proof.
  rewrite <- findEqual_true. by destruct (findEqual table value).
Qed.

(** X4: [stripTargetTriple] is absent exactly on the four triples and the
    eight duples, and a present result is a beginning of the input: nothing
    is ever added or changed in front of what is cut off. *)
Theorem stripTargetTriple_cuts_the_end (value : string) :
  (stripTargetTriple value = None ↔
   In value ALL_TARGET_TRIPLES ∨ In value TARGET_DUPLES) ∧
  (∀ stripped, stripTargetTriple value = Some stripped →
               ∃ suffix, value = stripped +:+ suffix).
Proof.
  split; [apply stripTargetTriple_None|].
  intros stripped Hstrip.
  assert (stripTargetTriple value ≠ None) as Hsome by (by rewrite Hstrip).
  rewrite stripTargetTriple_None in Hsome.
  rewrite stripTargetTriple_unfold in Hstrip.
  - injection Hstrip as <-.
    destruct (negb _); [apply (reduce_prefix hyphen)|
                        apply (reduce_prefix hyphenOrUnderscore)].
  - apply findEqual_false. tauto.
  - apply findEqual_false. tauto.
Qed.

Lemma stripTargetTriple_cuts_the_end_witness :
  ∃ suffix, "myapp_linux-arm64" = "myapp" +:+ suffix.
Proof.
  apply (proj2 (stripTargetTriple_cuts_the_end "myapp_linux-arm64") "myapp").
  reflexivity.
Defined.

(** X5: [stripTargetTriple] returns its input unchanged exactly when the
    input is not an enumerated identifier and ends neither in a hyphen and
    a triple nor in a hyphen or an underscore and a duple. *)
Theorem stripTargetTriple_unchanged_iff (value : string) :
  stripTargetTriple value = Some value ↔
  ¬ In value ALL_TARGET_TRIPLES ∧ ¬ In value TARGET_DUPLES ∧
  (∀ t, In t ALL_TARGET_TRIPLES → endsWith value (String "-" t) = false) ∧
  (∀ d sep, In d TARGET_DUPLES → In sep hyphenOrUnderscore →
            endsWith value (String sep d) = false).
Proof.
  split.
  - intros Hstrip.
    assert (stripTargetTriple value ≠ None) as Hsome by (by rewrite Hstrip).
    rewrite stripTargetTriple_None in Hsome.
    assert (¬ In value ALL_TARGET_TRIPLES ∧ ¬ In value TARGET_DUPLES) as [H1 H2]
      by tauto.
    rewrite stripTargetTriple_unfold in Hstrip by (by apply findEqual_false).
    injection Hstrip as Hstrip.
    destruct (strictEq (stripTriples value) value) eqn:Htriples; simpl in Hstrip.
    + apply strictEq_true in Htriples. split_and!; [done|done| |].
      * intros t Ht. apply (reduce_fixed hyphen _ _ Htriples); [done|by left].
      * intros d sep. by apply (reduce_fixed hyphenOrUnderscore _ _ Hstrip).
    + apply strictEq_false in Htriples. done.
  - intros (H1 & H2 & Htriples & Hduples).
    rewrite stripTargetTriple_unfold by (by apply findEqual_false).
    rewrite stripTriples_unchanged, strictEq_refl by done. simpl.
    unfold stripDuples. rewrite reduce_unchanged; [done|].
    intros d c. apply Hduples.
Qed.

Lemma stripTargetTriple_unchanged_iff_witness :
  stripTargetTriple "somebin-windows-x64" = Some "somebin-windows-x64" ∧
  endsWith "download.zip" (String "-" "x86_64-apple-darwin") = false.
Proof.
  split.
  - apply (proj2 (stripTargetTriple_unchanged_iff "somebin-windows-x64")).
    split_and!.
    + intros [H|[H|[H|[H|[]]]]]; discriminate H.
    + intros [H|[H|[H|[H|[H|[H|[H|[H|[]]]]]]]]]; discriminate H.
    + intros t [<-|[<-|[<-|[<-|[]]]]]; reflexivity.
    + intros d sep [<-|[<-|[<-|[<-|[<-|[<-|[<-|[<-|[]]]]]]]]] [<-|[<-|[]]];
        reflexivity.
  - destruct (proj1 (stripTargetTriple_unchanged_iff "download.zip"))
      as (_ & _ & Htriples & _); [reflexivity|].
    apply Htriples. simpl. auto.
Defined.

Lemma listedAfter_In (x y : string) (table : list string) :
  In y (listedAfter x table) → In y table.
Proof.
  induction table as [|z rest IH]; [done|]. simpl.
  destruct (strictEq z x); auto.
Qed.

(** X6: the three asset names a release carries for a binary on a supported
    platform, built from what the three identifier functions return, all
    strip back to the name of the binary, provided that name does not itself
    end in a recognised suffix. *)
Theorem platform_asset_names_strip_to_the_binary
  (arch platform t d u name : string) :
  getTargetTriple arch platform = Return t →
  getTargetDuple arch platform = Return d →
  getTargetDupleUnderscore arch platform = Return u →
  (∀ x sep, In x (ALL_TARGET_TRIPLES ++ TARGET_DUPLES) → In sep hyphenOrUnderscore →
            endsWith name (String sep x) = false) →
  stripTargetTriple (name +:+ "-" +:+ t) = Some name ∧
  stripTargetTriple (name +:+ "-" +:+ d) = Some name ∧
  stripTargetTriple (name +:+ "_" +:+ u) = Some name.
Proof.
  intros Ht Hd Hu Hname.
  destruct (target_duples_of_triple _ _ _ Ht) as (Hd' & Hu' & Hind & Hinu).
  cbv zeta in *. rewrite Hd in Hd'. rewrite Hu in Hu'.
  injection Hd' as ->. injection Hu' as ->.
  destruct (getTargetTriple_Return arch platform t Ht) as (Hint & _).
  split_and!.
  - apply strip_triple_suffix; [done|]. intros t' Ht'%listedAfter_In.
    apply (Hname t' "-"%char); [apply in_or_app; by left|by left].
  - apply (strip_duple_suffix name _ "-"); [done|by left|].
    intros d' sep' Hd'%listedAfter_In Hsep'.
    apply Hname; [apply in_or_app; by right|done].
  - apply (strip_duple_suffix name _ "_"); [done|right; by left|].
    intros d' sep' Hd'%listedAfter_In Hsep'.
    apply Hname; [apply in_or_app; by right|done].
Qed.

Lemma platform_asset_names_strip_to_the_binary_witness :
  stripTargetTriple ("mytool" +:+ "-" +:+ "aarch64-unknown-linux-musl") = Some "mytool" ∧
  stripTargetTriple ("mytool" +:+ "-" +:+ "linux-arm64") = Some "mytool" ∧
  stripTargetTriple ("mytool" +:+ "_" +:+ "linux_arm64") = Some "mytool".
Proof.
  apply (platform_asset_names_strip_to_the_binary "arm64" "linux").
  - reflexivity.
  - reflexivity.
  - reflexivity.
  - intros x sep Hx Hsep. simpl in Hx, Hsep.
    repeat (destruct Hx as [<-|Hx]); try (destruct Hx);
      destruct Hsep as [<-|[<-|[]]]; reflexivity.
Defined.

(** ** src/fetch.ts: what the version resolver returns *)

Section ResolverSoundness.

Variable isExact : string → bool.
Variable r : string.

Lemma tagged_eta (t : Tag) : tagged (tag_name t) (sha (tag_commit t)) = t.
Proof. by destruct t as [n [s]]. Qed.

Lemma recorded_more (seen : list Tag) (t : Tag) (st : ReducerState) :
  recorded isExact r seen st → recorded isExact r (seen ++ [t]) st.
Proof.
  intros [Hmap Hgiven]. split.
  - intros S versions v Hl Hv. destruct (Hmap S versions v Hl Hv) as [? ?].
    split; [done|]. apply in_or_app. by left.
  - intros S HS. apply in_or_app. left. by apply Hgiven.
Qed.

Lemma In_last (seen : list Tag) (t : Tag) : In t (seen ++ [t]).
Proof. apply in_or_app. right. by left. Qed.

(** One call keeps what is known true, and what it returns is an exact
    version read with the hash of the given tag. *)
Lemma reducer_recorded (seen : list Tag) (st : ReducerState) (t : Tag) :
  recorded isExact r seen st →
  recorded isExact r (seen ++ [t]) (reducer isExact r st t).1 ∧
  ∀ v, (reducer isExact r st t).2 = Some v →
       isExact v = true ∧
       ∃ S, In (tagged r S) (seen ++ [t]) ∧ In (tagged v S) (seen ++ [t]).
Proof.
  intros Hrec. pose proof (recorded_more seen t st Hrec) as [Hmap Hgiven].
  assert (In (tagged (tag_name t) (sha (tag_commit t))) (seen ++ [t])) as Ht
    by (rewrite tagged_eta; apply In_last).
  unfold reducer. destruct (strictEq (tag_name t) r) eqn:Hname.
  - apply strictEq_true in Hname. rewrite Hname in Ht.
    assert (recorded isExact r (seen ++ [t])
              {| versionsBySha := versionsBySha st;
                 givenTagSha := Some (sha (tag_commit t)) |}) as Hrec1.
    { split; [done|]. simpl. by intros S [= <-]. }
    destruct (containsExactTag isExact (versionsBySha st !! sha (tag_commit t)))
      as [exact|] eqn:Hfound.
    + simpl. split; [done|]. intros v [= <-].
      unfold containsExactTag in Hfound.
      destruct (versionsBySha st !! sha (tag_commit t)) as [versions|] eqn:Hl; [|done].
      apply find_some in Hfound as [Hin Hexact].
      split; [done|]. exists (sha (tag_commit t)). split; [done|].
      by apply (Hmap _ versions).
    + destruct (isExact (tag_name t)) eqn:Hexact; simpl.
      * rewrite strictEq_refl. simpl. split; [done|]. intros v [= <-].
        split; [done|]. exists (sha (tag_commit t)). by rewrite Hname.
      * by split.
  - destruct (isExact (tag_name t)) eqn:Hexact; simpl; [|by split].
    destruct (isEqual (givenTagSha st) (sha (tag_commit t))) eqn:Hequal; simpl.
    + split; [done|]. intros v [= <-]. split; [done|].
      exists (sha (tag_commit t)). split; [|done].
      apply Hgiven. unfold isEqual in Hequal.
      destruct (givenTagSha st) as [s|]; [|done].
      by apply strictEq_true in Hequal as ->.
    + split; [|done]. split; [|done].
      intros S versions v Hl Hv.
      destruct (decide (sha (tag_commit t) = S)) as [<-|Hne].
      * rewrite recordVersion_same in Hl. injection Hl as <-.
        apply in_app_or in Hv as [Hv|[<-|[]]]; [|done].
        destruct (versionsBySha st !! sha (tag_commit t)) as [old|] eqn:Hold; [|done].
        by apply (Hmap _ old).
      * rewrite recordVersion_other in Hl by done. by apply (Hmap _ versions).
Qed.

Lemma scanTags_recorded (stream : list Tag) :
  ∀ (seen : list Tag) (st : ReducerState) (v : string),
  recorded isExact r seen st →
  (scanTags isExact r st stream).2 = Some v →
  isExact v = true ∧
  ∃ S, In (tagged r S) (seen ++ stream) ∧ In (tagged v S) (seen ++ stream).
Proof.
  induction stream as [|t rest IH]; intros seen st v Hrec; simpl; [done|].
  destruct (reducer_recorded seen st t Hrec) as [Hrec' Hresult].
  destruct (reducer isExact r st t) as [st' [x|]]; simpl in *.
  - intros [= <-]. destruct (Hresult x eq_refl) as (Hexact & S & H1 & H2).
    split; [done|]. exists S.
    change (t :: rest) with ([t] ++ rest). rewrite app_assoc.
    split; apply in_or_app; by left.
  - intros Hscan. destruct (IH (seen ++ [t]) st' v Hrec' Hscan) as (Hexact & S & H1 & H2).
    split; [done|]. exists S. by rewrite <- !app_assoc in H1, H2.
Qed.

End ResolverSoundness.

Lemma recorded_initial (isExact : string → bool) (r : string) :
  recorded isExact r [] initialState.
Proof.
  split; [|done]. intros S versions v Hl. simpl in Hl.
  by rewrite lookup_empty in Hl.
Qed.

Lemma findExactSemanticVersionTag_Return
  (isExact : string → bool) (octokit : list (list Tag)) (slug : RepositorySlug)
  (target v : string) :
  (findExactSemanticVersionTag isExact octokit slug target).1 = Return v →
  isExact v = true ∧
  (v = target ∨
   ∃ S, In (tagged target S) (concat octokit) ∧ In (tagged v S) (concat octokit)).
Proof.
  unfold findExactSemanticVersionTag.
  destruct (isExact target) eqn:Htarget.
  - intros [= <-]. auto.
  - pose proof (scanPages_concat isExact target initialState octokit) as Hpages.
    destruct (scanPages isExact target initialState octokit) as [[x|] rest];
      simpl in *; [|done].
    intros [= <-]. symmetry in Hpages.
    destruct (scanTags_recorded isExact target (concat octokit) [] initialState x
                (recorded_initial isExact target) Hpages) as (Hexact & S & H1 & H2).
    split; [done|]. right. by exists S.
Qed.

(** X7: whatever the tag listing holds, a version the resolver returns is
    exact, and, unless it is the reference itself returned at once, it is
    the name of a listed tag whose commit is also the commit of a listed tag
    named by the reference. *)
Theorem findExactSemanticVersionTag_returns_exact_tag_of_the_commit
  (isExact : string → bool) (octokit : list (list Tag)) (slug : RepositorySlug)
  (target v : string) :
  (findExactSemanticVersionTag isExact octokit slug target).1 = Return v →
  isExact v = true ∧
  (v = target ∨
   ∃ S, In (tagged target S) (concat octokit) ∧ In (tagged v S) (concat octokit)).
Proof. apply findExactSemanticVersionTag_Return. Qed.

Lemma findExactSemanticVersionTag_returns_exact_tag_of_the_commit_witness :
  isExactSemanticVersion "v2.0.0" = true ∧
  ("v2.0.0" = "v2" ∨
   ∃ S, In (tagged "v2" S)
          (concat [[tagged "v1.2.3" commitA; tagged "v2.0.0" commitB];
                   [tagged "v1" commitA; tagged "v2" commitB]]) ∧
        In (tagged "v2.0.0" S)
          (concat [[tagged "v1.2.3" commitA; tagged "v2.0.0" commitB];
                   [tagged "v1" commitA; tagged "v2" commitB]])).
Proof.
  apply (findExactSemanticVersionTag_returns_exact_tag_of_the_commit
           isExactSemanticVersion _ testSlug "v2" "v2.0.0").
  vm_compute. reflexivity.
Defined.

Section ResolverCharacterised.

Variable isExact : string → bool.
Variables (r S : string).
Hypothesis given_not_exact : isExact r = false.

(** From every state of the scan, the result is read off the rest of the
    stream: the pending exact tag as soon as the given tag comes, the first
    exact tag of the commit once the given tag has come. *)
Lemma scanTags_first_exact (stream : list Tag) :
  ∀ (st : ReducerState) (seenGiven : bool) (pending : option string),
  scanState isExact S seenGiven pending st →
  (∀ t, In t stream → tag_name t = r → sha (tag_commit t) = S) →
  (scanTags isExact r st stream).2 =
  match pending with
  | Some e => if existsb (named r) stream then Some e else None
  | None => if seenGiven || existsb (named r) stream
            then tag_name <$> find (exactAt isExact S) stream
            else None
  end.
Proof.
  induction stream as [|t rest IH];
    intros st seenGiven pending (Hsha & Hmap & Hboth) Hone.
  { by destruct pending, seenGiven. }
  assert (∀ t', In t' rest → tag_name t' = r → sha (tag_commit t') = S) as Hone'
    by (intros; apply Hone; simpl; auto).
  simpl. destruct (decide (tag_name t = r)) as [Hname|Hname].
  - (* the given tag *)
    assert (named r t = true) as -> by (unfold named; by rewrite Hname, strictEq_refl).
    assert (exactAt isExact S t = false) as ->
      by (unfold exactAt; by rewrite Hname, given_not_exact).
    rewrite reducer_given by done. rewrite (Hone t) by (simpl; auto).
    destruct pending as [e|].
    + destruct Hmap as (He & others & ->). simpl. by rewrite He.
    + rewrite Hmap. simpl. rewrite orb_true_r.
      rewrite (IH _ true None); [done|by split_and!|done].
  - assert (named r t = false) as -> by (by apply strictEq_false).
    simpl. destruct (isExact (tag_name t)) eqn:Ht.
    + (* an exact tag *)
      rewrite reducer_exact by done. unfold exactAt at 1. rewrite Ht. simpl.
      destruct (decide (sha (tag_commit t) = S)) as [HS|HS].
      * rewrite HS, strictEq_refl, Hsha. destruct seenGiven; simpl.
        -- rewrite strictEq_refl. simpl. by rewrite (Hboth eq_refl).
        -- destruct pending as [e|].
           ++ destruct Hmap as (He & others & Hl).
              rewrite (IH _ false (Some e)); [done| |done].
              split_and!; [done|done| |done].
              rewrite <- HS, recordVersion_same, HS, Hl. by eexists.
           ++ rewrite (IH _ false (Some (tag_name t))); [done| |done].
              split_and!; [done|done| |done].
              rewrite <- HS, recordVersion_same, HS, Hmap. by eexists.
      * assert (strictEq (sha (tag_commit t)) S = false) as ->
          by (by apply strictEq_false).
        assert (isEqual (givenTagSha st) (sha (tag_commit t)) = false) as ->.
        { rewrite Hsha. destruct seenGiven; [|done]. simpl.
          apply strictEq_false. congruence. }
        apply (IH _ seenGiven pending); [|done].
        split; [done|]. split; [|done].
        destruct pending as [e|].
        -- destruct Hmap as (He & others & Hl). split; [done|].
           rewrite recordVersion_other by done. by eexists.
        -- by rewrite recordVersion_other.
    + (* a tag of no use *)
      assert (exactAt isExact S t = false) as -> by (unfold exactAt; by rewrite Ht).
      rewrite reducer_ignored by done.
      apply (IH _ seenGiven pending); [by split|done].
Qed.

End ResolverCharacterised.

(** X8: for a reference that is not exact and that the listing shows at the
    commit [S] only, the fold returns the name of the first tag of the
    stream that is an exact version of [S], and nothing when there is none;
    where the reference stands in the stream plays no part. *)
Theorem resolver_returns_first_exact_tag_of_the_commit
  (isExact : string → bool) (r S : string) (stream : list Tag) :
  isExact r = false →
  In (tagged r S) stream →
  (∀ t, In t stream → tag_name t = r → sha (tag_commit t) = S) →
  (scanTags isExact r initialState stream).2 =
  tag_name <$> find (exactAt isExact S) stream.
Proof.
  intros Hr Hin Hone.
  rewrite (scanTags_first_exact isExact r S Hr stream initialState false None);
    [|by split_and!|done].
  replace (existsb (named r) stream) with true; [done|].
  symmetry. apply existsb_exists. exists (tagged r S). split; [done|].
  apply strictEq_refl.
Qed.

Lemma resolver_returns_first_exact_tag_of_the_commit_witness :
  (scanTags isExactSemanticVersion "v1" initialState
     [tagged "v2.0.0" commitB; tagged "v1.2.3" commitA; tagged "v1" commitA;
      tagged "v1.2.4" commitA]).2 =
  tag_name <$> find (exactAt isExactSemanticVersion commitA)
     [tagged "v2.0.0" commitB; tagged "v1.2.3" commitA; tagged "v1" commitA;
      tagged "v1.2.4" commitA].
Proof.
  apply (resolver_returns_first_exact_tag_of_the_commit isExactSemanticVersion "v1"
           commitA).
  - reflexivity.
  - simpl. auto.
  - intros t [<-|[<-|[<-|[<-|[]]]]]; simpl; intros; done.
Defined.

Section ResolverPaging.

Variable isExact : string → bool.

(** Tags that are neither the reference nor an exact version leave the
    state as it is. *)
Lemma scanTags_filter (r : string) (stream : list Tag) :
  ∀ st, scanTags isExact r st stream =
        scanTags isExact r st (List.filter (relevant isExact r) stream).
Proof.
  induction stream as [|t rest IH]; intros st; [done|]. simpl.
  unfold relevant at 1, named.
  destruct (strictEq (tag_name t) r) eqn:Hname; simpl.
  - destruct (reducer isExact r st t) as [st' [x|]]; [done|]. apply IH.
  - destruct (isExact (tag_name t)) eqn:Hexact.
    + simpl. destruct (reducer isExact r st t) as [st' [x|]]; [done|]. apply IH.
    + rewrite reducer_ignored; [apply IH| |done]. by apply strictEq_false.
Qed.

(** Pages that give nothing are read and passed; the scan goes on from the
    state they leave. *)
Lemma scanPages_app (r : string) (before after : list (list Tag)) :
  ∀ st, (scanTags isExact r st (concat before)).2 = None →
        scanPages isExact r st (before ++ after) =
        scanPages isExact r (scanTags isExact r st (concat before)).1 after.
Proof.
  induction before as [|page before IH]; intros st; simpl; [done|].
  rewrite scanTags_app.
  destruct (scanTags isExact r st page) as [st' [x|]]; [done|]. apply IH.
Qed.

(** When nothing is found, every page was read. *)
Lemma scanPages_None (r : string) (pages : list (list Tag)) :
  ∀ st rest, scanPages isExact r st pages = (None, rest) → rest = [].
Proof.
  induction pages as [|page pages IH]; intros st rest; simpl.
  - by intros [= <-].
  - destruct (scanTags isExact r st page) as [st' [x|]]; [done|]. apply IH.
Qed.

End ResolverPaging.

(** X9: tags that are neither the reference nor an exact version are passed
    over: the fold over a stream is the fold over the stream without them,
    result and state alike. *)
Theorem resolver_ignores_other_tags
  (isExact : string → bool) (r : string) (st : ReducerState) (stream : list Tag) :
  scanTags isExact r st stream =
  scanTags isExact r st
    (List.filter (fun t => strictEq (tag_name t) r || isExact (tag_name t)) stream).
Proof. apply scanTags_filter. Qed.

(** X10: when no exact version of the listing shares a commit with a tag
    named by the reference, the resolver reads every page and throws
    "Expected to find an exact semantic version tag matching ..." with the
    reference and the repository. *)
Theorem findExactSemanticVersionTag_not_found
  (isExact : string → bool) (octokit : list (list Tag)) (slug : RepositorySlug)
  (target : string) :
  isExact target = false →
  (∀ S v, In (tagged target S) (concat octokit) → In (tagged v S) (concat octokit) →
          isExact v = false) →
  findExactSemanticVersionTag isExact octokit slug target =
  (Throw ("Expected to find an exact semantic version tag matching " +:+ target +:+
          " for " +:+ owner slug +:+ "/" +:+ repository slug),
   []).
Proof.
  intros Htarget Hnone. unfold findExactSemanticVersionTag. rewrite Htarget.
  pose proof (scanPages_concat isExact target initialState octokit) as Hpages.
  destruct (scanPages isExact target initialState octokit) as [[x|] rest] eqn:Hscan;
    simpl in Hpages.
  - symmetry in Hpages.
    destruct (scanTags_recorded isExact target (concat octokit) [] initialState x
                (recorded_initial isExact target) Hpages) as (Hexact & S & H1 & H2).
    simpl in H1, H2. by rewrite (Hnone S x H1 H2) in Hexact.
  - by rewrite (scanPages_None isExact target octokit _ _ Hscan).
Qed.

Lemma findExactSemanticVersionTag_not_found_witness :
  findExactSemanticVersionTag isExactSemanticVersion
    [[tagged "v2.0.0" commitB; tagged "v1" commitA]; [tagged "v1.2" commitA]]
    testSlug "v1" =
  (Throw "Expected to find an exact semantic version tag matching v1 for testowner/testrepo",
   []).
Proof.
  apply (findExactSemanticVersionTag_not_found isExactSemanticVersion).
  - reflexivity.
  - intros S v Hr Hv. simpl in Hr, Hv.
    destruct Hr as [Hr|[Hr|[Hr|[]]]]; try discriminate Hr;
      injection Hr as <-;
      destruct Hv as [Hv|[Hv|[Hv|[]]]]; try discriminate Hv;
      injection Hv as <-; reflexivity.
Defined.

(** X11: the pages are read one after the other and no further than the
    first page in which the reference is resolved: when the pages before it
    give nothing, the pages after it are left in the iterator. *)
Theorem findExactSemanticVersionTag_stops_at_the_resolving_page
  (isExact : string → bool) (before : list (list Tag)) (page : list Tag)
  (after : list (list Tag)) (slug : RepositorySlug) (target v : string) :
  isExact target = false →
  (scanTags isExact target initialState (concat before)).2 = None →
  (scanTags isExact target initialState (concat before ++ page)).2 = Some v →
  findExactSemanticVersionTag isExact (before ++ page :: after) slug target =
  (Return v, after).
Proof.
  intros Htarget Hbefore Hpage. unfold findExactSemanticVersionTag.
  rewrite Htarget, scanPages_app by done. simpl.
  rewrite scanTags_app in Hpage.
  destruct (scanTags isExact target initialState (concat before)) as [st [x|]];
    [done|]. simpl.
  destruct (scanTags isExact target st page) as [st' [x|]]; simpl in Hpage; [|done].
  by injection Hpage as ->.
Qed.

Lemma findExactSemanticVersionTag_stops_at_the_resolving_page_witness :
  findExactSemanticVersionTag isExactSemanticVersion
    ([[tagged "v2.0.0" commitB; tagged "v1.2.3" commitA]]
     ++ [tagged "v1" commitA; tagged "v1.2" commitA]
     :: [[tagged "v0.9.0" commitB]; []])
    testSlug "v1" =
  (Return "v1.2.3", [[tagged "v0.9.0" commitB]; []]).
Proof.
  apply (findExactSemanticVersionTag_stops_at_the_resolving_page
           isExactSemanticVersion).
  - reflexivity.
  - vm_compute. reflexivity.
  - vm_compute. reflexivity.
Defined.

(** ** src/fetch.ts: what the asset matcher returns *)

Lemma filter_Permutation_list {A} (f : A → bool) (l l' : list A) :
  Permutation l l' → Permutation (List.filter f l) (List.filter f l').
Proof.
  induction 1 as [|x l l' _ IH|x y l|l l' l'' _ IH1 _ IH2]; simpl.
  - done.
  - destruct (f x); [by constructor|done].
  - destruct (f x), (f y); try done. apply perm_swap.
  - by etrans.
Qed.

(** X12: in unnamed mode, when no label and no name of the list ends,
    without its file extension, with the triple, the duple or the underscore
    duple, the call throws "Expected to find asset in release owner/repo@tag
    with label or name containing platform identifier f1 or f2 [or f3] at
    the end of the filename (before the extension)". *)
Theorem unnamed_mode_not_found_message
  (slug : RepositorySlug) (tag targetTriple targetDuple : string)
  (targetDupleUnderscore : option string) (assets : list Asset) :
  targetDupleUnderscore ≠ Some "" →
  (∀ a field, In a assets →
     asset_label a = Some field ∨ asset_name a = Some field →
     endsWith (stripExtension field) targetTriple = false ∧
     endsWith (stripExtension field) targetDuple = false ∧
     (∀ u, targetDupleUnderscore = Some u →
           endsWith (stripExtension field) u = false)) →
  findMatchingReleaseAssetMetadata slug tag targetTriple targetDuple
    targetDupleUnderscore {| data_assets := assets |} None =
  Throw ("Expected to find asset in release " +:+
         (owner slug +:+ "/" +:+ repository slug +:+ "@" +:+ tag) +:+
         " with label or name containing platform identifier " +:+
         match targetDupleUnderscore with
         | None => targetTriple +:+ " or " +:+ targetDuple
         | Some u => targetTriple +:+ " or " +:+ targetDuple +:+ " or " +:+ u
         end +:+
         " at the end of the filename (before the extension)").
Proof.
  intros Hsupplied Hno.
  assert (List.filter (unnamedMatch targetTriple targetDuple targetDupleUnderscore)
            assets = []) as Hnone.
  { induction assets as [|a assets IH]; [done|]. simpl.
    destruct (unnamedMatch targetTriple targetDuple targetDupleUnderscore a) eqn:Ha.
    - apply unnamedMatch_true in Ha as (field & Hfield & Hends); [|done].
      destruct (Hno a field) as (H1 & H2 & H3); [by left|done|].
      destruct Hends as [H|[H|(u & Hu & H)]]; [congruence|congruence|].
      by rewrite (H3 u Hu) in H.
    - apply IH. intros a' field Ha'. apply Hno. by right. }
  unfold findMatchingReleaseAssetMetadata. simpl. rewrite Hnone.
  unfold notFoundUnnamed, unnamedFormats. rewrite truthyOpt_supplied by done.
  by destruct targetDupleUnderscore.
Qed.

Lemma unnamed_mode_not_found_message_witness :
  findMatchingReleaseAssetMetadata testSlug "v1.0.0" "aarch64-apple-darwin"
    "darwin-arm64" (Some "darwin_arm64")
    {| data_assets :=
         [labelled "somebin-windows-x64" "https://example.com/somebin-windows"] |}
    None =
  Throw "Expected to find asset in release testowner/testrepo@v1.0.0 with label or name containing platform identifier aarch64-apple-darwin or darwin-arm64 or darwin_arm64 at the end of the filename (before the extension)".
Proof.
  apply (unnamed_mode_not_found_message testSlug "v1.0.0" "aarch64-apple-darwin"
           "darwin-arm64" (Some "darwin_arm64")).
  - discriminate.
  - intros a field [<-|[]] [Hf|Hf]; simpl in Hf; [|discriminate].
    injection Hf as <-. split_and!; [reflexivity|reflexivity|].
    intros u [= <-]. reflexivity.
Defined.

(** X13: in named mode a result carries the requested binary name as it
    was given, and the address and the name of an asset of the list whose
    label or name is one of the candidate strings. *)
Theorem named_mode_returns_a_candidate
  (slug : RepositorySlug) (tag targetTriple targetDuple : string)
  (targetDupleUnderscore : option string) (b : string) (assets : list Asset)
  (result : ReleaseAssetMetadata) :
  findMatchingReleaseAssetMetadata slug tag targetTriple targetDuple
    targetDupleUnderscore {| data_assets := assets |} (Some b) = Return result →
  binaryName result = Some b ∧
  ∃ asset field,
    In asset assets ∧
    url result = asset_url asset ∧
    name result = default "" (asset_name asset) ∧
    (asset_label asset = Some field ∨ asset_name asset = Some field) ∧
    (field = b +:+ "-" +:+ targetTriple ∨
     field = b +:+ "-" +:+ targetDuple ∨
     ∃ u, targetDupleUnderscore = Some u ∧ u ≠ "" ∧ field = b +:+ "_" +:+ u).
Proof.
  unfold findMatchingReleaseAssetMetadata. simpl.
  destruct (find _ assets) as [asset|] eqn:Hfind; [|done].
  intros [= <-]. simpl. split; [done|].
  apply find_some in Hfind as [Hin Hmatch].
  assert (∀ field, equalsCandidate targetTriple targetDuple targetDupleUnderscore
                     b field = true →
          field = b +:+ "-" +:+ targetTriple ∨
          field = b +:+ "-" +:+ targetDuple ∨
          ∃ u, targetDupleUnderscore = Some u ∧ u ≠ "" ∧ field = b +:+ "_" +:+ u)
    as Hcandidate.
  { intros field. unfold equalsCandidate. rewrite !orb_true_iff, andb_true_iff.
    intros [[->%strictEq_true| ->%strictEq_true]|[Htruthy Heq%strictEq_true]];
      [by left|by right; left|].
    right. right. unfold targetLabelDupleUnderscore in *.
    destruct targetDupleUnderscore as [u|]; simpl in *; [|done].
    destruct (truthy u) eqn:Hu; [|done].
    exists u. split_and!; [done| |done]. by intros ->. }
  unfold namedMatch in Hmatch. apply orb_true_iff in Hmatch as [Hl|Hn].
  - destruct (asset_label asset) as [l|] eqn:Hlabel; [|done].
    exists asset, l. rewrite nameOrEmpty_default. split_and!; auto.
  - destruct (asset_name asset) as [n|] eqn:Hname'; [|done].
    exists asset, n. rewrite nameOrEmpty_default, Hname'. split_and!; auto.
Qed.

Lemma named_mode_returns_a_candidate_witness :
  binaryName {| binaryName := Some "testbin";
                url := "https://example.com/testbin-duple"; name := "" |}
  = Some "testbin" ∧
  ∃ asset field,
    In asset [labelled "otherbin-aarch64-apple-darwin" "https://example.com/otherbin";
              labelled "testbin-darwin-arm64" "https://example.com/testbin-duple"] ∧
    "https://example.com/testbin-duple" = asset_url asset ∧
    "" = default "" (asset_name asset) ∧
    (asset_label asset = Some field ∨ asset_name asset = Some field) ∧
    (field = "testbin" +:+ "-" +:+ "aarch64-apple-darwin" ∨
     field = "testbin" +:+ "-" +:+ "darwin-arm64" ∨
     ∃ u, None = Some u ∧ u ≠ "" ∧ field = "testbin" +:+ "_" +:+ u).
Proof.
  apply (named_mode_returns_a_candidate testSlug "v1.0.0" "aarch64-apple-darwin"
           "darwin-arm64" None "testbin").
  reflexivity.
Defined.

(** X14: in unnamed mode the outcome does not depend on the order of the
    assets: a list and any rearrangement of it give the same result or the
    same error. *)
Theorem unnamed_mode_ignores_the_order
  (slug : RepositorySlug) (tag targetTriple targetDuple : string)
  (targetDupleUnderscore : option string) (assets assets' : list Asset) :
  Permutation assets assets' →
  findMatchingReleaseAssetMetadata slug tag targetTriple targetDuple
    targetDupleUnderscore {| data_assets := assets |} None =
  findMatchingReleaseAssetMetadata slug tag targetTriple targetDuple
    targetDupleUnderscore {| data_assets := assets' |} None.
Proof.
  intros Hperm. unfold findMatchingReleaseAssetMetadata. simpl.
  apply (filter_Permutation_list
           (unnamedMatch targetTriple targetDuple targetDupleUnderscore)) in Hperm.
  pose proof (Permutation_length Hperm) as Hlen.
  destruct (List.filter _ assets) as [|a [|a2 l]].
  - apply Permutation_nil in Hperm. by rewrite Hperm.
  - apply Permutation_length_1_inv in Hperm. by rewrite Hperm.
  - destruct (List.filter _ assets') as [|a' [|a2' l']]; [done|done|].
    by rewrite Hlen.
Qed.

Lemma unnamed_mode_ignores_the_order_witness :
  findMatchingReleaseAssetMetadata testSlug "v1.0.0" "aarch64-apple-darwin"
    "darwin-arm64" None
    {| data_assets :=
         [labelled "somebin-darwin-arm64" "https://example.com/somebin-duple";
          labelled "somebin-windows-x64" "https://example.com/somebin-windows"] |}
    None =
  findMatchingReleaseAssetMetadata testSlug "v1.0.0" "aarch64-apple-darwin"
    "darwin-arm64" None
    {| data_assets :=
         [labelled "somebin-windows-x64" "https://example.com/somebin-windows";
          labelled "somebin-darwin-arm64" "https://example.com/somebin-duple"] |}
    None.
Proof.
  apply unnamed_mode_ignores_the_order. apply perm_swap.
Defined.

(** X15: in unnamed mode a result comes from the only asset of the list
    that the filter accepts: it carries that asset's address and name, and
    its binary name is [stripTargetTriple] of that asset's label or name. *)
Theorem unnamed_mode_returns_the_only_match
  (slug : RepositorySlug) (tag targetTriple targetDuple : string)
  (targetDupleUnderscore : option string) (assets : list Asset)
  (result : ReleaseAssetMetadata) :
  findMatchingReleaseAssetMetadata slug tag targetTriple targetDuple
    targetDupleUnderscore {| data_assets := assets |} None = Return result →
  ∃ asset field,
    List.filter (unnamedMatch targetTriple targetDuple targetDupleUnderscore) assets
      = [asset] ∧
    In asset assets ∧
    url result = asset_url asset ∧
    name result = default "" (asset_name asset) ∧
    (asset_label asset = Some field ∨ asset_name asset = Some field) ∧
    binaryName result = stripTargetTriple field.
Proof.
  unfold findMatchingReleaseAssetMetadata. simpl.
  destruct (List.filter _ assets) as [|asset [|a2 l]] eqn:Hfilter; [done| |done].
  assert (In asset assets) as Hin.
  { apply (filter_In (unnamedMatch targetTriple targetDuple targetDupleUnderscore)).
    rewrite Hfilter. by left. }
  destruct (matchField targetTriple targetDuple asset) as [field|] eqn:Hfield; [|done].
  intros [= <-]. exists asset, field. rewrite nameOrEmpty_default.
  split_and!; try done. unfold matchField in Hfield.
  destruct (whenString (asset_label asset) _); auto.
Qed.

Lemma unnamed_mode_returns_the_only_match_witness :
  ∃ asset field,
    List.filter (unnamedMatch "aarch64-apple-darwin" "darwin-arm64" None)
      [labelled "somebin-windows-x64" "https://example.com/somebin-windows";
       uploaded "somebin-darwin-arm64" "somebin.bin" "https://example.com/somebin-duple"]
      = [asset] ∧
    In asset
      [labelled "somebin-windows-x64" "https://example.com/somebin-windows";
       uploaded "somebin-darwin-arm64" "somebin.bin" "https://example.com/somebin-duple"] ∧
    "https://example.com/somebin-duple" = asset_url asset ∧
    "somebin.bin" = default "" (asset_name asset) ∧
    (asset_label asset = Some field ∨ asset_name asset = Some field) ∧
    Some "somebin" = stripTargetTriple field.
Proof.
  apply (unnamed_mode_returns_the_only_match testSlug "v1.0.0" "aarch64-apple-darwin"
           "darwin-arm64" None _
           {| binaryName := Some "somebin"; url := "https://example.com/somebin-duple";
              name := "somebin.bin" |}).
  reflexivity.
Defined.

(** X16: the call ends in a [TypeError] in one situation only: in unnamed
    mode, when the single asset the filter accepts has no name and its
    label, as it is, ends neither with the triple nor with the duple. *)
Theorem findMatchingReleaseAssetMetadata_TypeError_iff
  (slug : RepositorySlug) (tag targetTriple targetDuple : string)
  (targetDupleUnderscore : option string) (assets : list Asset)
  (requested : option string) :
  findMatchingReleaseAssetMetadata slug tag targetTriple targetDuple
    targetDupleUnderscore {| data_assets := assets |} requested = ThrowTypeError ↔
  requested = None ∧
  ∃ asset,
    List.filter (unnamedMatch targetTriple targetDuple targetDupleUnderscore) assets
      = [asset] ∧
    asset_name asset = None ∧
    ∀ label, asset_label asset = Some label →
             endsWith label targetTriple = false ∧
             endsWith label targetDuple = false.
Proof.
  unfold findMatchingReleaseAssetMetadata. simpl.
  destruct requested as [b|].
  { split; [|by intros [? _]]. by destruct (find _ assets). }
  destruct (List.filter _ assets) as [|asset [|a2 l]] eqn:Hfilter.
  - split; [done|]. by intros (_ & asset & ? & _).
  - unfold matchField. split.
    + intros Herror. split; [done|]. exists asset. split; [done|].
      destruct (asset_label asset) as [label|] eqn:Hlabel; simpl in Herror.
      * destruct (endsWith label targetTriple || endsWith label targetDuple) eqn:Hends;
          [done|].
        apply orb_false_iff in Hends as [H1 H2].
        split; [by destruct (asset_name asset)|].
        by intros ? [= <-].
      * split; [by destruct (asset_name asset)|done].
    + intros (_ & asset' & [= <-] & Hname' & Hlabel).
      destruct (asset_label asset) as [label|]; simpl.
      * destruct (Hlabel label eq_refl) as [-> ->]. simpl. by rewrite Hname'.
      * by rewrite Hname'.
  - split; [done|]. by intros (_ & asset' & ? & _).
Qed.

Lemma findMatchingReleaseAssetMetadata_TypeError_iff_witness :
  findMatchingReleaseAssetMetadata testSlug "v1.0.0" "aarch64-apple-darwin"
    "darwin-arm64" None
    {| data_assets :=
         [labelled "mytool-darwin-arm64.tar" "https://example.com/mytool"] |}
    None = ThrowTypeError.
Proof.
  apply (proj2 (findMatchingReleaseAssetMetadata_TypeError_iff testSlug "v1.0.0"
                  "aarch64-apple-darwin" "darwin-arm64" None _ None)).
  split; [reflexivity|].
  exists (labelled "mytool-darwin-arm64.tar" "https://example.com/mytool").
  split_and!; [reflexivity|reflexivity|].
  intros label [= <-]. split; reflexivity.
Defined.

(** X17: the filter of the unnamed mode never looks at what follows the
    last dot of a label or name: with a non-empty text without a dot behind
    a dot, the test is made on what stands before that dot, so that a
    platform identifier that comes after a dot is not seen. *)
Theorem unnamed_filter_drops_what_follows_the_last_dot
  (targetTriple targetDuple : string) (targetDupleUnderscore : option string)
  (stem extension : string) :
  extensionBody extension = true →
  endsWithPlatform targetTriple targetDuple targetDupleUnderscore
    (stem +:+ "." +:+ extension) =
  endsWith stem targetTriple || endsWith stem targetDuple ||
  (truthyOpt targetDupleUnderscore &&
   endsWith stem (default "" targetDupleUnderscore)).
Proof.
  intros Hext. unfold endsWithPlatform.
  change ("." +:+ extension) with (String "." extension).
  by rewrite stripExtension_append.
Qed.

Lemma unnamed_filter_drops_what_follows_the_last_dot_witness :
  endsWithPlatform "aarch64-apple-darwin" "darwin-arm64" (Some "darwin_arm64")
    ("mytool-1" +:+ "." +:+ "2-darwin-arm64") =
  endsWith "mytool-1" "aarch64-apple-darwin" || endsWith "mytool-1" "darwin-arm64" ||
  (truthyOpt (Some "darwin_arm64") &&
   endsWith "mytool-1" (default "" (Some "darwin_arm64"))).
Proof.
  apply unnamed_filter_drops_what_follows_the_last_dot. reflexivity.
Defined.

(** ** src/main.ts: the resolution steps of the installer *)

Section Installer.

Variable isExact : string → bool.
Variables (octokit : Octokit) (targetRelease : TargetRelease).

Local Abbreviation resolve := (fun arch platform =>
  resolveReleaseAsset isExact arch platform octokit targetRelease).

Lemma resolve_unsupported (arch platform message : string) :
  getTargetTriple arch platform = Throw message →
  resolve arch platform =
  (Throw message, {| pagesLeft := None; releaseRequested := None |}).
Proof. intros Ht. unfold resolveReleaseAsset. by rewrite Ht. Qed.

(** What the installer does once the three identifiers are there. *)
Lemma resolve_supported (arch platform t : string) :
  getTargetTriple arch platform = Return t →
  ∃ d u,
    getTargetDuple arch platform = Return d ∧
    getTargetDupleUnderscore arch platform = Return u ∧
    resolve arch platform =
    match findExactSemanticVersionTag isExact
            (listTags octokit (target_slug targetRelease))
            (target_slug targetRelease) (target_tag targetRelease) with
    | (Throw m, rest) =>
        (Throw m, {| pagesLeft := Some rest; releaseRequested := None |})
    | (ThrowTypeError, rest) =>
        (ThrowTypeError, {| pagesLeft := Some rest; releaseRequested := None |})
    | (Return releaseTag, rest) =>
        (match fetchReleaseAssetMetadataFromTag octokit (target_slug targetRelease)
                 (target_binaryName targetRelease) releaseTag t d (Some u) with
         | Return releaseAsset => Return (releaseTag, releaseAsset)
         | Throw m => Throw m
         | ThrowTypeError => ThrowTypeError
         end,
         {| pagesLeft := Some rest; releaseRequested := Some releaseTag |})
    end.
Proof.
  intros Ht. destruct (target_duples_of_triple arch platform t Ht) as (Hd & Hu & _).
  cbv zeta in Hd, Hu. eexists _, _. split_and!; [done|done|].
  unfold resolveReleaseAsset. rewrite Ht, Hd, Hu.
  destruct (findExactSemanticVersionTag _ _ _ _) as [[releaseTag|m|] rest]; [|done..].
  by destruct (fetchReleaseAssetMetadataFromTag _ _ _ _ _ _ _).
Qed.

End Installer.

(** X18: on an architecture or a platform that [getTargetTriple] does not
    support, the installer throws that function's error before it asks for
    the tag listing or for a release, although [getTargetDuple] alone would
    accept the architecture. *)
Theorem installer_checks_the_platform_first
  (isExact : string → bool) (arch platform : string) (octokit : Octokit)
  (targetRelease : TargetRelease) :
  (arch ≠ "arm64" → arch ≠ "x64" →
   resolveReleaseAsset isExact arch platform octokit targetRelease =
   (Throw ("Unsupported architecture " +:+ arch +:+
           " -- only aarch64 and x86_64 currently supported"),
    {| pagesLeft := None; releaseRequested := None |})) ∧
  (arch = "arm64" ∨ arch = "x64" →
   platform ≠ "darwin" → platform ≠ "linux" →
   resolveReleaseAsset isExact arch platform octokit targetRelease =
   (Throw ("Unsupported platform " +:+ platform +:+
           " -- only darwin and linux currently supported"),
    {| pagesLeft := None; releaseRequested := None |})).
Proof.
  split.
  - intros H1%strictEq_false H2%strictEq_false. apply resolve_unsupported.
    unfold getTargetTriple, architectureLabel. by rewrite H1, H2.
  - intros Harch H1%strictEq_false H2%strictEq_false. apply resolve_unsupported.
    unfold getTargetTriple, platformLabel.
    destruct Harch as [-> | ->]; simpl; by rewrite H1, H2.
Qed.

Lemma installer_checks_the_platform_first_witness :
  resolveReleaseAsset isExactSemanticVersion "ia32" "linux" noRelease someTarget =
  (Throw "Unsupported architecture ia32 -- only aarch64 and x86_64 currently supported",
   {| pagesLeft := None; releaseRequested := None |}) ∧
  resolveReleaseAsset isExactSemanticVersion "arm64" "win32" noRelease someTarget =
  (Throw "Unsupported platform win32 -- only darwin and linux currently supported",
   {| pagesLeft := None; releaseRequested := None |}).
Proof.
  split.
  - apply (proj1 (installer_checks_the_platform_first isExactSemanticVersion
                    "ia32" "linux" noRelease someTarget)); discriminate.
  - apply (proj2 (installer_checks_the_platform_first isExactSemanticVersion
                    "arm64" "win32" noRelease someTarget));
      [by left|discriminate|discriminate].
Defined.

(** X19: the installer asks for a release with an exact version only: the
    tag it passes to [getReleaseByTag] is exact, and it is the requested
    reference or the name of a listed tag that shares its commit with a
    listed tag named by the reference. *)
Theorem installer_requests_the_release_of_an_exact_tag
  (isExact : string → bool) (arch platform : string) (octokit : Octokit)
  (targetRelease : TargetRelease) (releaseTag : string) :
  releaseRequested
    (resolveReleaseAsset isExact arch platform octokit targetRelease).2
  = Some releaseTag →
  isExact releaseTag = true ∧
  (releaseTag = target_tag targetRelease ∨
   ∃ S, In (tagged (target_tag targetRelease) S)
          (concat (listTags octokit (target_slug targetRelease))) ∧
        In (tagged releaseTag S)
          (concat (listTags octokit (target_slug targetRelease)))).
Proof.
  destruct (getTargetTriple arch platform) as [t|m|] eqn:Ht.
  - destruct (resolve_supported isExact octokit targetRelease arch platform t Ht)
      as (d & u & _ & _ & ->).
    destruct (findExactSemanticVersionTag _ _ _ _) as [[tag|m|] rest] eqn:Hfind;
      simpl; [|done..].
    intros [= <-].
    apply (findExactSemanticVersionTag_Return isExact _ (target_slug targetRelease)).
    by rewrite Hfind.
  - by rewrite (resolve_unsupported isExact octokit targetRelease arch platform m Ht).
  - unfold resolveReleaseAsset. by rewrite Ht.
Qed.

Lemma installer_requests_the_release_of_an_exact_tag_witness :
  isExactSemanticVersion "v1.2.3" = true ∧
  ("v1.2.3" = target_tag someTarget ∨
   ∃ S, In (tagged (target_tag someTarget) S)
          (concat (listTags noRelease (target_slug someTarget))) ∧
        In (tagged "v1.2.3" S)
          (concat (listTags noRelease (target_slug someTarget)))).
Proof.
  apply (installer_requests_the_release_of_an_exact_tag isExactSemanticVersion
           "x64" "linux" noRelease someTarget "v1.2.3").
  vm_compute. reflexivity.
Defined.

(** ** src/main.ts: zip archives *)

Lemma toLowerCase_append (s t : string) :
  toLowerCase (s +:+ t) = toLowerCase s +:+ toLowerCase t.
Proof.
  induction s as [|a s IH]; [done|]. rewrite append_cons. simpl.
  by rewrite IH, append_cons.
Qed.

Lemma toLowerCase_append_inv (a : string) :
  ∀ f b, toLowerCase f = a +:+ b →
         ∃ f1 f2, f = f1 +:+ f2 ∧ toLowerCase f1 = a ∧ toLowerCase f2 = b.
Proof.
  induction a as [|c a IH]; intros f b Hf.
  - exists "", f. by rewrite append_nil_l in Hf.
  - rewrite append_cons in Hf. destruct f as [|c0 f]; [done|].
    simpl in Hf. injection Hf as Hc Hf.
    destruct (IH f b Hf) as (f1 & f2 & -> & <- & <-).
    exists (String c0 f1), f2. simpl. by rewrite Hc.
Qed.

Ltac lower_cases c :=
  destruct c as [[] [] [] [] [] [] [] []]; vm_compute; intros H;
  first [discriminate H | auto].

Lemma toLowerCaseChar_dot (c : ascii) :
  toLowerCaseChar c = "."%char → c = "."%char.
Proof. lower_cases c. Qed.

Lemma toLowerCaseChar_z (c : ascii) :
  toLowerCaseChar c = "z"%char → c = "z"%char ∨ c = "Z"%char.
Proof. lower_cases c. Qed.

Lemma toLowerCaseChar_i (c : ascii) :
  toLowerCaseChar c = "i"%char → c = "i"%char ∨ c = "I"%char.
Proof. lower_cases c. Qed.

Lemma toLowerCaseChar_p (c : ascii) :
  toLowerCaseChar c = "p"%char → c = "p"%char ∨ c = "P"%char.
Proof. lower_cases c. Qed.

(** X20: [isZipFile] holds exactly for the names whose last four characters
    are a dot and the letters z, i, p, each in either case; nothing else of
    the name matters. *)
Theorem isZipFile_iff (filename : string) :
  isZipFile filename = true ↔
  ∃ stem z i p,
    filename = stem +:+ String "." (String z (String i (String p ""))) ∧
    (z = "z"%char ∨ z = "Z"%char) ∧
    (i = "i"%char ∨ i = "I"%char) ∧
    (p = "p"%char ∨ p = "P"%char).
Proof.
  unfold isZipFile. rewrite endsWith_true. split.
  - intros (lowered & Hlower).
    apply toLowerCase_append_inv in Hlower as (stem & ext & -> & _ & Hext).
    destruct ext as [|c1 [|c2 [|c3 [|c4 [|c5 ext]]]]]; try done.
    simpl in Hext. injection Hext as H1 H2 H3 H4.
    apply toLowerCaseChar_dot in H1 as ->.
    exists stem, c2, c3, c4. split; [done|].
    split_and!; [by apply toLowerCaseChar_z|by apply toLowerCaseChar_i|
                 by apply toLowerCaseChar_p].
  - intros (stem & z & i & p & -> & Hz & Hi & Hp).
    exists (toLowerCase stem). rewrite toLowerCase_append. f_equal.
    destruct Hz as [-> | ->], Hi as [-> | ->], Hp as [-> | ->]; reflexivity.
Qed.

Lemma isZipFile_iff_witness :
  isZipFile ("MyTool-darwin-arm64" +:+ String "." (String "Z" (String "i" (String "P" ""))))
  = true.
Proof.
  apply (proj2 (isZipFile_iff _)).
  exists "MyTool-darwin-arm64", "Z"%char, "i"%char, "P"%char. auto 10.
Defined.
